(** * MindSpace teletherapy platform

    A shallow embedding of the two places where the repository decides
    anything: the Postgres schema (tables, CHECK constraints, triggers and
    row-level-security policies of [schema.sql]) and the client helpers of
    [app.js] ([guardDashboard], [isValidHttpsUrl], [isFutureDate]).

    The schema is declarative, so its embedding is the meaning Postgres gives
    to the declarations: a table is a finite map from primary key to row, a
    statement is a function from the database to an outcome and a new
    database, and a policy is a predicate over the caller ([auth.uid()]), the
    database and the row.  The JavaScript helpers are embedded as functions
    over the values the platform hands them. *)

From Stdlib Require Import ZArith String Ascii List Bool Lia.
From stdpp Require Import base option gmap strings list fin_maps.

#[local] Set Warnings "-clear-no-such-hyp".

Local Open Scope string_scope.

(** ** SQL values and three-valued logic *)

Module Sql.

(** [uuid] values only ever get compared, so any countable type will do. *)
Abbreviation uuid := positive.
(** [timestamp with time zone]: an instant, as a count of microseconds. *)
Abbreviation timestamptz := Z.
(** [date]: a day, as a count of days since 1970-01-01. *)
Abbreviation date := Z.

(** A nullable column is an [option]; a SQL truth value is an
    [option bool] whose [None] is NULL (unknown). *)
Definition sql_eq {A} `{EqDecision A} (x y : option A) : option bool :=
  match x, y with
  | Some a, Some b => Some (bool_decide (a = b))
  | _, _ => None
  end.

Definition sql_and (a b : option bool) : option bool :=
  match a, b with
  | Some false, _ | _, Some false => Some false
  | Some true, Some true => Some true
  | _, _ => None
  end.

Definition sql_or (a b : option bool) : option bool :=
  match a, b with
  | Some true, _ | _, Some true => Some true
  | Some false, Some false => Some false
  | _, _ => None
  end.

(** [x in ('a', 'b', ...)] over non-null literals. *)
Definition is_in (x : option string) (l : list string) : option bool :=
  match x with
  | Some s => Some (bool_decide (s ∈ l))
  | None => None
  end.

(** [x >= 0]. *)
Definition ge0 (x : option Z) : option bool :=
  match x with
  | Some v => Some (bool_decide (0 ≤ v)%Z)
  | None => None
  end.

(** WHERE, USING and WITH CHECK keep a row only when the expression is
    true: false and NULL both drop it. *)
Definition qualifies (b : option bool) : bool :=
  match b with Some true => true | _ => false end.

(** A CHECK constraint is violated only when the expression is false: a
    NULL result satisfies it. *)
Definition check_holds (b : option bool) : bool :=
  match b with Some false => false | _ => true end.

(** What an INSERT gives for a column that has a DEFAULT: nothing (the
    default is used) or a value (NULL included, for a nullable column). *)
Inductive column_input (A : Type) : Type :=
| DEFAULT
| VALUE (v : A).
Arguments DEFAULT {A}.
Arguments VALUE {A} v.

Definition or_default {A} (c : column_input A) (d : A) : A :=
  match c with DEFAULT => d | VALUE v => v end.

End Sql.

Import Sql.

(** ** Tables *)

(** [auth.users] (the hosting platform's table), as far as
    [handle_new_user] reads it.  [email] is nullable there.  The JSON object
    [raw_user_meta_data] is a finite map from key to the text [->>] gives. *)
Module AuthUser.
Record row := {
  id : uuid;
  email : option string;
  raw_user_meta_data : gmap string string
}.
End AuthUser.

(** [public.profiles] *)
Module Profile.
Record row := {
  user_id : uuid;
  email : string;
  role : string;
  full_name : option string;
  phone : option string;
  date_of_birth : option date;
  gender : option string;
  city : option string;
  address : option string;
  emergency_contact_name : option string;
  emergency_contact_phone : option string;
  profile_picture_url : option string;
  status : option string;
  approved : option bool;
  created_at : option timestamptz;
  updated_at : option timestamptz
}.

(** What an INSERT supplies: [created_at] and [updated_at] default to
    [now()]. *)
Record insert_row := {
  i_user_id : uuid;
  i_email : string;
  i_role : string;
  i_full_name : option string;
  i_phone : option string;
  i_date_of_birth : option date;
  i_gender : option string;
  i_city : option string;
  i_address : option string;
  i_emergency_contact_name : option string;
  i_emergency_contact_phone : option string;
  i_profile_picture_url : option string;
  i_status : option string;
  i_approved : option bool;
  i_created_at : column_input (option timestamptz);
  i_updated_at : column_input (option timestamptz)
}.

Definition with_defaults (now : timestamptz) (i : insert_row) : row :=
  {| user_id := i_user_id i;
     email := i_email i;
     role := i_role i;
     full_name := i_full_name i;
     phone := i_phone i;
     date_of_birth := i_date_of_birth i;
     gender := i_gender i;
     city := i_city i;
     address := i_address i;
     emergency_contact_name := i_emergency_contact_name i;
     emergency_contact_phone := i_emergency_contact_phone i;
     profile_picture_url := i_profile_picture_url i;
     status := i_status i;
     approved := i_approved i;
     created_at := or_default (i_created_at i) (Some now);
     updated_at := or_default (i_updated_at i) (Some now) |}.

(** [check (role in ('user', 'therapist', 'admin'))] *)
Definition check_role (r : row) : bool :=
  check_holds (is_in (Some (role r)) ["user"; "therapist"; "admin"]).

Definition set_role (v : string) (r : row) : row :=
  {| user_id := user_id r;
     email := email r;
     role := v;
     full_name := full_name r;
     phone := phone r;
     date_of_birth := date_of_birth r;
     gender := gender r;
     city := city r;
     address := address r;
     emergency_contact_name := emergency_contact_name r;
     emergency_contact_phone := emergency_contact_phone r;
     profile_picture_url := profile_picture_url r;
     status := status r;
     approved := approved r;
     created_at := created_at r;
     updated_at := updated_at r |}.

Definition set_updated_at (v : option timestamptz) (r : row) : row :=
  {| user_id := user_id r;
     email := email r;
     role := role r;
     full_name := full_name r;
     phone := phone r;
     date_of_birth := date_of_birth r;
     gender := gender r;
     city := city r;
     address := address r;
     emergency_contact_name := emergency_contact_name r;
     emergency_contact_phone := emergency_contact_phone r;
     profile_picture_url := profile_picture_url r;
     status := status r;
     approved := approved r;
     created_at := created_at r;
     updated_at := v |}.
End Profile.

(** [public."Therapists"] *)
Module Therapist.
Record row := {
  id : uuid;
  user_id : uuid;
  Name : string;
  email : string;
  phone : option string;
  Specialization : string;
  fee : Z;
  bio : option string;
  experience : option Z;
  license : option string;
  Active : option bool;
  approval_status : option string;
  created_at : option timestamptz
}.

(** [Active] defaults to true, [approval_status] to 'pending',
    [created_at] to [now()]. *)
Record insert_row := {
  i_id : uuid;
  i_user_id : uuid;
  i_Name : string;
  i_email : string;
  i_phone : option string;
  i_Specialization : string;
  i_fee : Z;
  i_bio : option string;
  i_experience : option Z;
  i_license : option string;
  i_Active : column_input (option bool);
  i_approval_status : column_input (option string);
  i_created_at : column_input (option timestamptz)
}.

Definition with_defaults (now : timestamptz) (i : insert_row) : row :=
  {| id := i_id i;
     user_id := i_user_id i;
     Name := i_Name i;
     email := i_email i;
     phone := i_phone i;
     Specialization := i_Specialization i;
     fee := i_fee i;
     bio := i_bio i;
     experience := i_experience i;
     license := i_license i;
     Active := or_default (i_Active i) (Some true);
     approval_status := or_default (i_approval_status i) (Some "pending");
     created_at := or_default (i_created_at i) (Some now) |}.

(** [check (fee >= 0)], [check (experience >= 0)] and
    [check (approval_status in ('pending', 'approved', 'rejected'))] *)
Definition check_fee (r : row) : bool := check_holds (ge0 (Some (fee r))).
Definition check_experience (r : row) : bool := check_holds (ge0 (experience r)).
Definition check_approval_status (r : row) : bool :=
  check_holds (is_in (approval_status r) ["pending"; "approved"; "rejected"]).
Definition checks (r : row) : bool :=
  check_fee r && check_experience r && check_approval_status r.

Definition set_approval_status (v : option string) (r : row) : row :=
  {| id := id r;
     user_id := user_id r;
     Name := Name r;
     email := email r;
     phone := phone r;
     Specialization := Specialization r;
     fee := fee r;
     bio := bio r;
     experience := experience r;
     license := license r;
     Active := Active r;
     approval_status := v;
     created_at := created_at r |}.
End Therapist.

(** [public."Bookings"] *)
Module Booking.
Record row := {
  id : uuid;
  user_id : uuid;
  therapist_id : uuid;
  session_date : date;
  start_time : string;
  end_time : option string;
  amount : Z;
  status : option string;
  patient_name : option string;
  patient_email : option string;
  problem_description : option string;
  meeting_link : option string;
  session_notes : option string;
  next_session_notes : option string;
  reschedule_requested : option bool;
  reschedule_new_date : option date;
  reschedule_new_start_time : option string;
  reschedule_reason : option string;
  therapist_reschedule_requested : option bool;
  therapist_reschedule_date : option date;
  therapist_reschedule_time : option string;
  therapist_reschedule_reason : option string;
  created_at : option timestamptz;
  updated_at : option timestamptz
}.

(** [id] defaults to [gen_random_uuid()], [status] to 'pending', the two
    reschedule flags to false, the two timestamps to [now()]. *)
Record insert_row := {
  i_id : column_input uuid;
  i_user_id : uuid;
  i_therapist_id : uuid;
  i_session_date : date;
  i_start_time : string;
  i_end_time : option string;
  i_amount : Z;
  i_status : column_input (option string);
  i_patient_name : option string;
  i_patient_email : option string;
  i_problem_description : option string;
  i_meeting_link : option string;
  i_session_notes : option string;
  i_next_session_notes : option string;
  i_reschedule_requested : column_input (option bool);
  i_reschedule_new_date : option date;
  i_reschedule_new_start_time : option string;
  i_reschedule_reason : option string;
  i_therapist_reschedule_requested : column_input (option bool);
  i_therapist_reschedule_date : option date;
  i_therapist_reschedule_time : option string;
  i_therapist_reschedule_reason : option string;
  i_created_at : column_input (option timestamptz);
  i_updated_at : column_input (option timestamptz)
}.

(** [random_uuid] is what [gen_random_uuid()] returns for this statement. *)
Definition with_defaults (now : timestamptz) (random_uuid : uuid)
    (i : insert_row) : row :=
  {| id := or_default (i_id i) random_uuid;
     user_id := i_user_id i;
     therapist_id := i_therapist_id i;
     session_date := i_session_date i;
     start_time := i_start_time i;
     end_time := i_end_time i;
     amount := i_amount i;
     status := or_default (i_status i) (Some "pending");
     patient_name := i_patient_name i;
     patient_email := i_patient_email i;
     problem_description := i_problem_description i;
     meeting_link := i_meeting_link i;
     session_notes := i_session_notes i;
     next_session_notes := i_next_session_notes i;
     reschedule_requested := or_default (i_reschedule_requested i) (Some false);
     reschedule_new_date := i_reschedule_new_date i;
     reschedule_new_start_time := i_reschedule_new_start_time i;
     reschedule_reason := i_reschedule_reason i;
     therapist_reschedule_requested :=
       or_default (i_therapist_reschedule_requested i) (Some false);
     therapist_reschedule_date := i_therapist_reschedule_date i;
     therapist_reschedule_time := i_therapist_reschedule_time i;
     therapist_reschedule_reason := i_therapist_reschedule_reason i;
     created_at := or_default (i_created_at i) (Some now);
     updated_at := or_default (i_updated_at i) (Some now) |}.

(** [check (amount >= 0)] and
    [check (status in ('pending', 'confirmed', 'completed', 'cancelled', 'rejected'))] *)
Definition check_amount (r : row) : bool := check_holds (ge0 (Some (amount r))).
Definition check_status (r : row) : bool :=
  check_holds
    (is_in (status r) ["pending"; "confirmed"; "completed"; "cancelled"; "rejected"]).
Definition checks (r : row) : bool := check_amount r && check_status r.

(** The SET clauses the claims speak of.  A column that a SET clause does
    not name keeps its value. *)
Definition set_status (v : option string) (r : row) : row :=
  {| id := id r; user_id := user_id r; therapist_id := therapist_id r;
     session_date := session_date r; start_time := start_time r;
     end_time := end_time r; amount := amount r;
     status := v;
     patient_name := patient_name r; patient_email := patient_email r;
     problem_description := problem_description r;
     meeting_link := meeting_link r; session_notes := session_notes r;
     next_session_notes := next_session_notes r;
     reschedule_requested := reschedule_requested r;
     reschedule_new_date := reschedule_new_date r;
     reschedule_new_start_time := reschedule_new_start_time r;
     reschedule_reason := reschedule_reason r;
     therapist_reschedule_requested := therapist_reschedule_requested r;
     therapist_reschedule_date := therapist_reschedule_date r;
     therapist_reschedule_time := therapist_reschedule_time r;
     therapist_reschedule_reason := therapist_reschedule_reason r;
     created_at := created_at r; updated_at := updated_at r |}.

Definition set_reschedule_requested (v : option bool) (r : row) : row :=
  {| id := id r; user_id := user_id r; therapist_id := therapist_id r;
     session_date := session_date r; start_time := start_time r;
     end_time := end_time r; amount := amount r;
     status := status r;
     patient_name := patient_name r; patient_email := patient_email r;
     problem_description := problem_description r;
     meeting_link := meeting_link r; session_notes := session_notes r;
     next_session_notes := next_session_notes r;
     reschedule_requested := v;
     reschedule_new_date := reschedule_new_date r;
     reschedule_new_start_time := reschedule_new_start_time r;
     reschedule_reason := reschedule_reason r;
     therapist_reschedule_requested := therapist_reschedule_requested r;
     therapist_reschedule_date := therapist_reschedule_date r;
     therapist_reschedule_time := therapist_reschedule_time r;
     therapist_reschedule_reason := therapist_reschedule_reason r;
     created_at := created_at r; updated_at := updated_at r |}.

Definition set_therapist_reschedule_requested (v : option bool) (r : row) : row :=
  {| id := id r; user_id := user_id r; therapist_id := therapist_id r;
     session_date := session_date r; start_time := start_time r;
     end_time := end_time r; amount := amount r;
     status := status r;
     patient_name := patient_name r; patient_email := patient_email r;
     problem_description := problem_description r;
     meeting_link := meeting_link r; session_notes := session_notes r;
     next_session_notes := next_session_notes r;
     reschedule_requested := reschedule_requested r;
     reschedule_new_date := reschedule_new_date r;
     reschedule_new_start_time := reschedule_new_start_time r;
     reschedule_reason := reschedule_reason r;
     therapist_reschedule_requested := v;
     therapist_reschedule_date := therapist_reschedule_date r;
     therapist_reschedule_time := therapist_reschedule_time r;
     therapist_reschedule_reason := therapist_reschedule_reason r;
     created_at := created_at r; updated_at := updated_at r |}.

Definition set_created_at (v : option timestamptz) (r : row) : row :=
  {| id := id r; user_id := user_id r; therapist_id := therapist_id r;
     session_date := session_date r; start_time := start_time r;
     end_time := end_time r; amount := amount r;
     status := status r;
     patient_name := patient_name r; patient_email := patient_email r;
     problem_description := problem_description r;
     meeting_link := meeting_link r; session_notes := session_notes r;
     next_session_notes := next_session_notes r;
     reschedule_requested := reschedule_requested r;
     reschedule_new_date := reschedule_new_date r;
     reschedule_new_start_time := reschedule_new_start_time r;
     reschedule_reason := reschedule_reason r;
     therapist_reschedule_requested := therapist_reschedule_requested r;
     therapist_reschedule_date := therapist_reschedule_date r;
     therapist_reschedule_time := therapist_reschedule_time r;
     therapist_reschedule_reason := therapist_reschedule_reason r;
     created_at := v; updated_at := updated_at r |}.

Definition set_updated_at (v : option timestamptz) (r : row) : row :=
  {| id := id r; user_id := user_id r; therapist_id := therapist_id r;
     session_date := session_date r; start_time := start_time r;
     end_time := end_time r; amount := amount r;
     status := status r;
     patient_name := patient_name r; patient_email := patient_email r;
     problem_description := problem_description r;
     meeting_link := meeting_link r; session_notes := session_notes r;
     next_session_notes := next_session_notes r;
     reschedule_requested := reschedule_requested r;
     reschedule_new_date := reschedule_new_date r;
     reschedule_new_start_time := reschedule_new_start_time r;
     reschedule_reason := reschedule_reason r;
     therapist_reschedule_requested := therapist_reschedule_requested r;
     therapist_reschedule_date := therapist_reschedule_date r;
     therapist_reschedule_time := therapist_reschedule_time r;
     therapist_reschedule_reason := therapist_reschedule_reason r;
     created_at := created_at r; updated_at := v |}.
End Booking.

(** ** The database *)

Record db := {
  auth_users : gmap uuid AuthUser.row;
  profiles : gmap uuid Profile.row;
  Therapists : gmap uuid Therapist.row;
  Bookings : gmap uuid Booking.row
}.

Definition empty_db : db :=
  {| auth_users := ∅; profiles := ∅; Therapists := ∅; Bookings := ∅ |}.

Definition with_auth_users (t : gmap uuid AuthUser.row) (d : db) : db :=
  {| auth_users := t; profiles := profiles d;
     Therapists := Therapists d; Bookings := Bookings d |}.
Definition with_profiles (t : gmap uuid Profile.row) (d : db) : db :=
  {| auth_users := auth_users d; profiles := t;
     Therapists := Therapists d; Bookings := Bookings d |}.
Definition with_Therapists (t : gmap uuid Therapist.row) (d : db) : db :=
  {| auth_users := auth_users d; profiles := profiles d;
     Therapists := t; Bookings := Bookings d |}.
Definition with_Bookings (t : gmap uuid Booking.row) (d : db) : db :=
  {| auth_users := auth_users d; profiles := profiles d;
     Therapists := Therapists d; Bookings := t |}.

(** The rows of a table, as a query with no WHERE clause returns them. *)
Definition rows {A} (t : gmap uuid A) : list A := (map_to_list t).*2.

(** ** Triggers *)

(** [update_updated_at_column()]: [new.updated_at = now(); return new;].
    The function is written once for every table that has the column. *)
Class UpdatedAt (R : Type) := set_updated_at : option timestamptz → R → R.

#[global] Instance profiles_updated_at : UpdatedAt Profile.row :=
  Profile.set_updated_at.
#[global] Instance Bookings_updated_at : UpdatedAt Booking.row :=
  Booking.set_updated_at.

Definition update_updated_at_column {R} `{UpdatedAt R} (now : timestamptz) (new : R)
    : R :=
  set_updated_at (Some now) new.

(** The triggers that run it BEFORE UPDATE, on [profiles] and on
    ["Bookings"]. *)
Definition update_profiles_updated_at (now : timestamptz) (new : Profile.row)
    : Profile.row :=
  update_updated_at_column now new.

Definition update_bookings_updated_at (now : timestamptz) (new : Booking.row)
    : Booking.row :=
  update_updated_at_column now new.

(** [coalesce(a, b)] with a non-null second argument. *)
Definition coalesce {A} (a : option A) (b : A) : A :=
  match a with Some v => v | None => b end.

(** [split_part(s, sep, 1)]: the text before the first [sep], all of [s]
    when it has none. *)
Fixpoint split_part_1 (sep : ascii) (s : string) : string :=
  match s with
  | EmptyString => EmptyString
  | String c s' => if Ascii.eqb c sep then EmptyString else String c (split_part_1 sep s')
  end.

(** [handle_new_user()], as the row it inserts for a new [auth.users] row:
    [insert into public.profiles (user_id, email, role, full_name) values
     (new.id, new.email, coalesce(new.raw_user_meta_data->>'role', 'user'),
      coalesce(new.raw_user_meta_data->>'full_name', split_part(new.email, '@', 1)))].
    [None] when [new.email] is NULL, which [email text not null] refuses. *)
Definition handle_new_user (now : timestamptz) (new : AuthUser.row)
    : option Profile.row :=
  match AuthUser.email new with
  | None => None
  | Some e =>
      Some
        (Profile.with_defaults now
           {| Profile.i_user_id := AuthUser.id new;
              Profile.i_email := e;
              Profile.i_role :=
                coalesce (AuthUser.raw_user_meta_data new !! "role") "user";
              Profile.i_full_name :=
                Some (coalesce (AuthUser.raw_user_meta_data new !! "full_name")
                        (split_part_1 "@" e));
              Profile.i_phone := None;
              Profile.i_date_of_birth := None;
              Profile.i_gender := None;
              Profile.i_city := None;
              Profile.i_address := None;
              Profile.i_emergency_contact_name := None;
              Profile.i_emergency_contact_phone := None;
              Profile.i_profile_picture_url := None;
              Profile.i_status := None;
              Profile.i_approved := None;
              Profile.i_created_at := DEFAULT;
              Profile.i_updated_at := DEFAULT |})
  end.

(** ** Row-level-security policies

    Every policy of the schema is permissive, so the policies of one command
    on one table are joined by OR, and a row passes when the result is true.
    A policy written with USING only uses the same expression as its WITH
    CHECK.  [auth_uid] is [auth.uid()]: [None] for a caller who is not
    signed in.

    A policy's subquery is evaluated over the rows of [profiles] as they
    are when the statement starts, which is how a security-definer function
    such as the schema's own [is_admin] evaluates it, and is the meaning the
    policies are written to have.  (Run with the caller's rights, the
    subquery on [profiles] would itself come under the policies of
    [profiles], one of which is that subquery; Postgres refuses to expand
    such a policy and reports an infinite recursion.  The model does not
    take that refusal to be the schema's meaning.) *)

Section policies.
Context (d : db) (auth_uid : option uuid).

(** [exists (select 1 from public.profiles
             where user_id = auth.uid() and role = 'admin')] *)
Definition caller_is_admin : option bool :=
  Some
    (bool_decide
       (map_Exists
          (λ _ p,
            Is_true
              (qualifies
                 (sql_and (sql_eq (Some (Profile.user_id p)) auth_uid)
                    (sql_eq (Some (Profile.role p)) (Some "admin")))))
          (profiles d))).

(** *** profiles *)

(** "Users can view own profile" *)
Definition Users_can_view_own_profile (r : Profile.row) : option bool :=
  sql_eq auth_uid (Some (Profile.user_id r)).
(** "Users can update own profile" *)
Definition Users_can_update_own_profile (r : Profile.row) : option bool :=
  sql_eq auth_uid (Some (Profile.user_id r)).
(** "Admin can view all profiles" *)
Definition Admin_can_view_all_profiles (r : Profile.row) : option bool :=
  caller_is_admin.
(** "Admin can update all profiles" *)
Definition Admin_can_update_all_profiles (r : Profile.row) : option bool :=
  caller_is_admin.
(** "Allow insert during signup" *)
Definition Allow_insert_during_signup (r : Profile.row) : option bool :=
  sql_eq auth_uid (Some (Profile.user_id r)).

Definition profiles_select (r : Profile.row) : bool :=
  qualifies (sql_or (Users_can_view_own_profile r) (Admin_can_view_all_profiles r)).
Definition profiles_update (r : Profile.row) : bool :=
  qualifies (sql_or (Users_can_update_own_profile r) (Admin_can_update_all_profiles r)).
Definition profiles_insert (r : Profile.row) : bool :=
  qualifies (Allow_insert_during_signup r).

(** *** Therapists *)

(** "Public can view approved active therapists" *)
Definition Public_can_view_approved_active_therapists (r : Therapist.row)
    : option bool :=
  sql_and (sql_eq (Therapist.approval_status r) (Some "approved"))
    (sql_eq (Therapist.Active r) (Some true)).
(** "Therapist can view own therapist record" *)
Definition Therapist_can_view_own_therapist_record (r : Therapist.row)
    : option bool :=
  sql_or (sql_eq auth_uid (Some (Therapist.id r)))
    (sql_eq auth_uid (Some (Therapist.user_id r))).
(** "Therapist can update own therapist record" *)
Definition Therapist_can_update_own_therapist_record (r : Therapist.row)
    : option bool :=
  sql_or (sql_eq auth_uid (Some (Therapist.id r)))
    (sql_eq auth_uid (Some (Therapist.user_id r))).
(** "Admin can view all therapists" *)
Definition Admin_can_view_all_therapists (r : Therapist.row) : option bool :=
  caller_is_admin.
(** "Admin can update all therapists" *)
Definition Admin_can_update_all_therapists (r : Therapist.row) : option bool :=
  caller_is_admin.
(** "Allow insert during therapist signup" *)
Definition Allow_insert_during_therapist_signup (r : Therapist.row)
    : option bool :=
  sql_eq auth_uid (Some (Therapist.id r)).

Definition Therapists_select (r : Therapist.row) : bool :=
  qualifies
    (sql_or (Public_can_view_approved_active_therapists r)
       (sql_or (Therapist_can_view_own_therapist_record r)
          (Admin_can_view_all_therapists r))).
Definition Therapists_update (r : Therapist.row) : bool :=
  qualifies
    (sql_or (Therapist_can_update_own_therapist_record r)
       (Admin_can_update_all_therapists r)).
Definition Therapists_insert (r : Therapist.row) : bool :=
  qualifies (Allow_insert_during_therapist_signup r).

(** *** Bookings *)

(** "Users can insert own bookings" *)
Definition Users_can_insert_own_bookings (r : Booking.row) : option bool :=
  sql_eq auth_uid (Some (Booking.user_id r)).
(** "Users can view own bookings" *)
Definition Users_can_view_own_bookings (r : Booking.row) : option bool :=
  sql_eq auth_uid (Some (Booking.user_id r)).
(** "Users can update own bookings" *)
Definition Users_can_update_own_bookings (r : Booking.row) : option bool :=
  sql_eq auth_uid (Some (Booking.user_id r)).
(** "Therapist can view assigned bookings" *)
Definition Therapist_can_view_assigned_bookings (r : Booking.row) : option bool :=
  sql_eq auth_uid (Some (Booking.therapist_id r)).
(** "Therapist can update assigned bookings" *)
Definition Therapist_can_update_assigned_bookings (r : Booking.row) : option bool :=
  sql_eq auth_uid (Some (Booking.therapist_id r)).
(** "Admin can view all bookings" *)
Definition Admin_can_view_all_bookings (r : Booking.row) : option bool :=
  caller_is_admin.
(** "Admin can update all bookings" *)
Definition Admin_can_update_all_bookings (r : Booking.row) : option bool :=
  caller_is_admin.
(** "Admin can delete bookings" *)
Definition Admin_can_delete_bookings (r : Booking.row) : option bool :=
  caller_is_admin.

Definition Bookings_select (r : Booking.row) : bool :=
  qualifies
    (sql_or (Users_can_view_own_bookings r)
       (sql_or (Therapist_can_view_assigned_bookings r)
          (Admin_can_view_all_bookings r))).
Definition Bookings_update (r : Booking.row) : bool :=
  qualifies
    (sql_or (Users_can_update_own_bookings r)
       (sql_or (Therapist_can_update_assigned_bookings r)
          (Admin_can_update_all_bookings r))).
Definition Bookings_insert (r : Booking.row) : bool :=
  qualifies (Users_can_insert_own_bookings r).
Definition Bookings_delete (r : Booking.row) : bool :=
  qualifies (Admin_can_delete_bookings r).

End policies.

(** ** Helper functions *)

(** [is_admin(user_uuid)]:
    [return exists (select 1 from public.profiles
                    where user_id = user_uuid and role = 'admin')],
    security definer. *)
Definition is_admin (d : db) (user_uuid : uuid) : bool :=
  bool_decide
    (map_Exists
       (λ _ p, Profile.user_id p = user_uuid ∧ Profile.role p = "admin")
       (profiles d)).

(** [get_user_role(user_uuid)]:
    [select role into user_role from public.profiles where user_id = user_uuid],
    NULL when there is no such profile. *)
Definition get_user_role (d : db) (user_uuid : uuid) : option string :=
  Profile.role <$> profiles d !! user_uuid.

(** ** Statements

    A statement takes the database to an outcome and a database; a statement
    that fails leaves the database as it was.  [Done n] is a statement that
    ran and touched [n] rows: a row that the USING policies hide is skipped
    without an error, so [Done 0] is what a caller with no access gets from
    UPDATE and DELETE. *)

Inductive sql_error : Type :=
| not_null_violation
| check_violation
| unique_violation
| foreign_key_violation
| rls_violation. (* "new row violates row-level security policy" *)

Inductive outcome : Type :=
| Done (n : nat)
| Failed (e : sql_error).

(** *** SELECT *)

Definition select_profiles (auth_uid : option uuid)
    (where_ : Profile.row → bool) (d : db) : list Profile.row :=
  List.filter (λ r, profiles_select d auth_uid r && where_ r) (rows (profiles d)).

Definition select_Therapists (auth_uid : option uuid)
    (where_ : Therapist.row → bool) (d : db) : list Therapist.row :=
  List.filter (λ r, Therapists_select d auth_uid r && where_ r) (rows (Therapists d)).

Definition select_Bookings (auth_uid : option uuid)
    (where_ : Booking.row → bool) (d : db) : list Booking.row :=
  List.filter (λ r, Bookings_select d auth_uid r && where_ r) (rows (Bookings d)).

(** *** Foreign keys

    [profiles.user_id] references [auth.users(id)], [Therapists.user_id] and
    [Bookings.user_id] reference [profiles(user_id)], [Bookings.therapist_id]
    references [Therapists(id)].  A referenced key cannot be changed while a
    row refers to it (no ON UPDATE action is declared). *)

Definition profile_is_referenced (d : db) (u : uuid) : bool :=
  bool_decide (map_Exists (λ _ t, Therapist.user_id t = u) (Therapists d))
  || bool_decide (map_Exists (λ _ b, Booking.user_id b = u) (Bookings d)).

Definition therapist_is_referenced (d : db) (t : uuid) : bool :=
  bool_decide (map_Exists (λ _ b, Booking.therapist_id b = t) (Bookings d)).

Definition has_key {A} (t : gmap uuid A) (k : uuid) : bool :=
  bool_decide (is_Some (t !! k)).

(** *** Sign-up: INSERT on [auth.users] by the platform, then the trigger
    [on_auth_user_created] (security definer: no policy applies to its
    insert, the table's constraints do). *)

Definition sign_up (now : timestamptz) (new : AuthUser.row) (d : db)
    : outcome * db :=
  if has_key (auth_users d) (AuthUser.id new) then (Failed unique_violation, d)
  else
    match handle_new_user now new with
    | None => (Failed not_null_violation, d)
    | Some p =>
        if negb (Profile.check_role p) then (Failed check_violation, d)
        else if has_key (profiles d) (Profile.user_id p) then (Failed unique_violation, d)
        else
          (Done 1,
           with_profiles (<[Profile.user_id p := p]> (profiles d))
             (with_auth_users (<[AuthUser.id new := new]> (auth_users d)) d))
    end.

(** The schema's closing note: an admin is made by running
    [UPDATE public.profiles SET role = 'admin' WHERE email = ...] in the SQL
    editor, that is as the database owner, whom no policy restricts.  The
    BEFORE UPDATE trigger still fires. *)
Definition promote_to_admin (now : timestamptz) (e : string) (d : db)
    : outcome * db :=
  let hit (p : Profile.row) := bool_decide (Profile.email p = e) in
  (Done (length (List.filter hit (rows (profiles d)))),
   with_profiles
     ((λ p, if hit p
            then update_profiles_updated_at now (Profile.set_role "admin" p)
            else p) <$> profiles d)
     d).

(** *** INSERT *)

Definition insert_profiles (auth_uid : option uuid) (now : timestamptz)
    (i : Profile.insert_row) (d : db) : outcome * db :=
  let new := Profile.with_defaults now i in
  if negb (profiles_insert auth_uid new) then (Failed rls_violation, d)
  else if negb (Profile.check_role new) then (Failed check_violation, d)
  else if has_key (profiles d) (Profile.user_id new) then (Failed unique_violation, d)
  else if negb (has_key (auth_users d) (Profile.user_id new))
  then (Failed foreign_key_violation, d)
  else (Done 1, with_profiles (<[Profile.user_id new := new]> (profiles d)) d).

Definition insert_Therapists (auth_uid : option uuid) (now : timestamptz)
    (i : Therapist.insert_row) (d : db) : outcome * db :=
  let new := Therapist.with_defaults now i in
  if negb (Therapists_insert auth_uid new) then (Failed rls_violation, d)
  else if negb (Therapist.checks new) then (Failed check_violation, d)
  else if has_key (Therapists d) (Therapist.id new) then (Failed unique_violation, d)
  else if negb (has_key (profiles d) (Therapist.user_id new))
  then (Failed foreign_key_violation, d)
  else (Done 1, with_Therapists (<[Therapist.id new := new]> (Therapists d)) d).

Definition insert_Bookings (auth_uid : option uuid) (now : timestamptz)
    (random_uuid : uuid) (i : Booking.insert_row) (d : db) : outcome * db :=
  let new := Booking.with_defaults now random_uuid i in
  if negb (Bookings_insert auth_uid new) then (Failed rls_violation, d)
  else if negb (Booking.checks new) then (Failed check_violation, d)
  else if has_key (Bookings d) (Booking.id new) then (Failed unique_violation, d)
  else if negb (has_key (profiles d) (Booking.user_id new)
                && has_key (Therapists d) (Booking.therapist_id new))
  then (Failed foreign_key_violation, d)
  else (Done 1, with_Bookings (<[Booking.id new := new]> (Bookings d)) d).

(** *** UPDATE ... SET ... WHERE <primary key> = k

    The SET list is a function from the row to the row it assigns.  The
    statement reads the table through its WHERE clause, so the SELECT
    policies apply beside the UPDATE ones, to the row as it is and as it
    will be.  Order: USING on the stored row, the BEFORE UPDATE trigger,
    WITH CHECK on the new row, the CHECK constraints, the primary key, the
    foreign keys. *)

Definition update_profiles (auth_uid : option uuid) (now : timestamptz)
    (k : uuid) (set : Profile.row → Profile.row) (d : db) : outcome * db :=
  match profiles d !! k with
  | None => (Done 0, d)
  | Some old =>
      if negb (profiles_select d auth_uid old && profiles_update d auth_uid old)
      then (Done 0, d)
      else
        let new := update_profiles_updated_at now (set old) in
        if negb (profiles_update d auth_uid new && profiles_select d auth_uid new)
        then (Failed rls_violation, d)
        else if negb (Profile.check_role new) then (Failed check_violation, d)
        else if bool_decide (Profile.user_id new ≠ k)
                && has_key (profiles d) (Profile.user_id new)
        then (Failed unique_violation, d)
        else if negb (has_key (auth_users d) (Profile.user_id new))
                || (bool_decide (Profile.user_id new ≠ k) && profile_is_referenced d k)
        then (Failed foreign_key_violation, d)
        else
          (Done 1,
           with_profiles (<[Profile.user_id new := new]> (delete k (profiles d))) d)
  end.

Definition update_Therapists (auth_uid : option uuid) (k : uuid)
    (set : Therapist.row → Therapist.row) (d : db) : outcome * db :=
  match Therapists d !! k with
  | None => (Done 0, d)
  | Some old =>
      if negb (Therapists_select d auth_uid old && Therapists_update d auth_uid old)
      then (Done 0, d)
      else
        let new := set old in
        if negb (Therapists_update d auth_uid new && Therapists_select d auth_uid new)
        then (Failed rls_violation, d)
        else if negb (Therapist.checks new) then (Failed check_violation, d)
        else if bool_decide (Therapist.id new ≠ k)
                && has_key (Therapists d) (Therapist.id new)
        then (Failed unique_violation, d)
        else if negb (has_key (profiles d) (Therapist.user_id new))
                || (bool_decide (Therapist.id new ≠ k) && therapist_is_referenced d k)
        then (Failed foreign_key_violation, d)
        else
          (Done 1,
           with_Therapists (<[Therapist.id new := new]> (delete k (Therapists d))) d)
  end.

Definition update_Bookings (auth_uid : option uuid) (now : timestamptz)
    (k : uuid) (set : Booking.row → Booking.row) (d : db) : outcome * db :=
  match Bookings d !! k with
  | None => (Done 0, d)
  | Some old =>
      if negb (Bookings_select d auth_uid old && Bookings_update d auth_uid old)
      then (Done 0, d)
      else
        let new := update_bookings_updated_at now (set old) in
        if negb (Bookings_update d auth_uid new && Bookings_select d auth_uid new)
        then (Failed rls_violation, d)
        else if negb (Booking.checks new) then (Failed check_violation, d)
        else if bool_decide (Booking.id new ≠ k)
                && has_key (Bookings d) (Booking.id new)
        then (Failed unique_violation, d)
        else if negb (has_key (profiles d) (Booking.user_id new)
                      && has_key (Therapists d) (Booking.therapist_id new))
        then (Failed foreign_key_violation, d)
        else
          (Done 1,
           with_Bookings (<[Booking.id new := new]> (delete k (Bookings d))) d)
  end.

(** *** DELETE FROM "Bookings" WHERE id = k

    The only DELETE policy of the schema is "Admin can delete bookings";
    [profiles] and ["Therapists"] have none, so row-level security lets no
    caller delete from them. *)
Definition delete_Bookings (auth_uid : option uuid) (k : uuid) (d : db)
    : outcome * db :=
  match Bookings d !! k with
  | None => (Done 0, d)
  | Some old =>
      if negb (Bookings_select d auth_uid old && Bookings_delete d auth_uid old)
      then (Done 0, d)
      else (Done 1, with_Bookings (delete k (Bookings d)) d)
  end.

(** *** Histories *)

Inductive statement : Type :=
| SignUp (now : timestamptz) (new : AuthUser.row)
| PromoteToAdmin (now : timestamptz) (email : string)
| InsertProfile (auth_uid : option uuid) (now : timestamptz) (i : Profile.insert_row)
| InsertTherapist (auth_uid : option uuid) (now : timestamptz) (i : Therapist.insert_row)
| InsertBooking (auth_uid : option uuid) (now : timestamptz) (random_uuid : uuid)
    (i : Booking.insert_row)
| UpdateProfile (auth_uid : option uuid) (now : timestamptz) (k : uuid)
    (set : Profile.row → Profile.row)
| UpdateTherapist (auth_uid : option uuid) (k : uuid)
    (set : Therapist.row → Therapist.row)
| UpdateBooking (auth_uid : option uuid) (now : timestamptz) (k : uuid)
    (set : Booking.row → Booking.row)
| DeleteBooking (auth_uid : option uuid) (k : uuid).

Definition run (s : statement) (d : db) : outcome * db :=
  match s with
  | SignUp now new => sign_up now new d
  | PromoteToAdmin now e => promote_to_admin now e d
  | InsertProfile u now i => insert_profiles u now i d
  | InsertTherapist u now i => insert_Therapists u now i d
  | InsertBooking u now rnd i => insert_Bookings u now rnd i d
  | UpdateProfile u now k set => update_profiles u now k set d
  | UpdateTherapist u k set => update_Therapists u k set d
  | UpdateBooking u now k set => update_Bookings u now k set d
  | DeleteBooking u k => delete_Bookings u k d
  end.

(** The database after a history of statements, oldest first. *)
Definition run_all (ss : list statement) (d : db) : db :=
  foldl (λ d s, (run s d).2) d ss.

(** A database is reachable when some history builds it from the empty one. *)
Inductive reachable : db → Prop :=
| reachable_empty : reachable empty_db
| reachable_run s d : reachable d → reachable (run s d).2.

(** * The client helpers of [app.js] *)

(** ** Effects of the page scripts

    A script reads what the platform answers and leaves three traces: the
    page it sends the browser to ([window.location.href = ...]), the lines it
    writes to the console, and whether it signed the session out.  An
    awaited call either resolves or throws; [try ... catch] is [try_catch]. *)

Module Js.

Record world := {
  location_href : option string;  (* the last assignment, if any *)
  console : list string;          (* newest first *)
  signed_out : bool
}.

Definition initial : world :=
  {| location_href := None; console := []; signed_out := false |}.

Inductive completion (A : Type) : Type :=
| Normal (v : A)
| Throw (e : string).
Arguments Normal {A} v.
Arguments Throw {A} e.

Definition prog (A : Type) : Type := world → completion A * world.

Definition ret {A} (v : A) : prog A := λ w, (Normal v, w).

Definition bind {A B} (m : prog A) (k : A → prog B) : prog B :=
  λ w, match m w with
       | (Normal v, w') => k v w'
       | (Throw e, w') => (Throw e, w')
       end.

Definition try_catch {A} (body : prog A) (handler : string → prog A) : prog A :=
  λ w, match body w with
       | (Normal v, w') => (Normal v, w')
       | (Throw e, w') => handler e w'
       end.

(** [await x] for a call whose outcome the platform decides. *)
Definition await {A} (x : completion A) : prog A := λ w, (x, w).

Definition console_log (msg : string) : prog unit :=
  λ w, (Normal tt,
        {| location_href := location_href w;
           console := msg :: console w;
           signed_out := signed_out w |}).

Definition set_location_href (page : string) : prog unit :=
  λ w, (Normal tt,
        {| location_href := Some page;
           console := console w;
           signed_out := signed_out w |}).

Definition mark_signed_out : prog unit :=
  λ w, (Normal tt,
        {| location_href := location_href w;
           console := console w;
           signed_out := true |}).

End Js.

(** [x ← m; k] and [m ;; k] are stdpp's notations for [Js.bind]. *)
#[global] Instance prog_ret : MRet Js.prog := @Js.ret.
#[global] Instance prog_bind : MBind Js.prog := λ A B k m, Js.bind m k.

(** ** [guardDashboard] and what it calls *)

Module App.

Import Js.

(** The user object of the auth service; the scripts read its [id]. *)
Record User := { id : uuid }.

(** A [{ data, error }] answer of the client library. *)
Record response (A : Type) := {
  data : option A;
  error : option string
}.
Arguments data {A} r.
Arguments error {A} r.

(** What the platform answers to the calls [guardDashboard] makes. *)
Record platform := {
  (** [supabaseClient.auth.getUser()]; [data] is the [user] of
      [{ data: { user }, error }] *)
  auth_getUser : completion (response User);
  (** [from('profiles').select('*').eq('user_id', userId).single()] *)
  profiles_single : uuid → completion (response Profile.row);
  (** [from('Therapists').select('approval_status').eq('id', id).single()];
      the row has the one column, which is nullable *)
  Therapists_approval_status_single : uuid → completion (response (option string));
  (** [supabaseClient.auth.signOut()] *)
  auth_signOut : completion unit;
  (** [window.location.pathname] *)
  location_pathname : string
}.

Section with_platform.
Context (P : platform).

(** [if (error) { console.error(...); return null; } return user;]
    inside [try], with [catch] returning null. *)
Definition getCurrentUser : prog (option User) :=
  try_catch
    (r ← await (auth_getUser P) ;
     match error r with
     | Some e => console_log ("Error getting current user: " ++ e) ;; ret None
     | None => ret (data r)
     end)
    (λ e, console_log ("Exception getting current user: " ++ e) ;; ret None).

Definition getUserProfile (userId : uuid) : prog (option Profile.row) :=
  try_catch
    (r ← await (profiles_single P userId) ;
     match error r with
     | Some e => console_log ("Error fetching user profile: " ++ e) ;; ret None
     | None => ret (data r)
     end)
    (λ e, console_log ("Exception fetching user profile: " ++ e) ;; ret None).

(** [pathname.split('/').pop()]: the text after the last '/'. *)
Fixpoint last_segment (acc s : string) : string :=
  match s with
  | EmptyString => acc
  | String c s' =>
      if Ascii.eqb c "/" then last_segment EmptyString s'
      else last_segment (acc ++ String c EmptyString) s'
  end.

Definition redirectByRole (role : string) : prog unit :=
  let currentPage := last_segment EmptyString (location_pathname P) in
  let targetPage :=
    if String.eqb role "admin" then "admin-dashboard.html"
    else if String.eqb role "therapist" then "therapist-dashboard.html"
    else "user-dashboard.html" in
  if negb (String.eqb currentPage targetPage)
  then set_location_href targetPage
  else ret tt.

Definition guardDashboard (expectedRole : string)
    : prog (option (User * Profile.row)) :=
  try_catch
    (user ← getCurrentUser ;
     match user with
     | None =>
         console_log "No authenticated user, redirecting to login" ;;
         set_location_href "login.html" ;;
         ret None
     | Some user =>
         profile ← getUserProfile (id user) ;
         match profile with
         | None =>
             console_log "Profile not found for user" ;;
             await (auth_signOut P) ;;
             mark_signed_out ;;
             set_location_href "login.html" ;;
             ret None
         | Some profile =>
             if negb (String.eqb (Profile.role profile) expectedRole)
             then
               console_log
                 ("Role mismatch: expected " ++ expectedRole ++ ", got "
                    ++ Profile.role profile) ;;
               redirectByRole (Profile.role profile) ;;
               ret None
             else
               (if String.eqb (Profile.role profile) "therapist"
                then
                  r ← await (Therapists_approval_status_single P (id user)) ;
                  match data r with
                  | Some approval_status =>
                      (* [therapist && therapist.approval_status !== 'approved'] *)
                      if negb (bool_decide (approval_status = Some "approved"))
                      then console_log "Therapist pending approval"
                      else ret tt
                  | None => ret tt
                  end
                else ret tt) ;;
               ret (Some (user, profile))
         end
     end)
    (λ e,
      console_log ("Error in guardDashboard: " ++ e) ;;
      set_location_href "login.html" ;;
      ret None).

End with_platform.

End App.

(** ** [getCurrentSession] and [hasRole] *)

Section session_helpers.
Import Js.
Context {Session : Type}.
(** [supabaseClient.auth.getSession()]; [data] is the [session] of
    [{ data: { session }, error }]. *)
Context (auth_getSession : completion (App.response Session)).
Context (P : App.platform).

Definition getCurrentSession : prog (option Session) :=
  try_catch
    (r ← await auth_getSession ;
     match App.error r with
     | Some e => console_log ("Error getting session: " ++ e) ;; ret None
     | None => ret (App.data r)
     end)
    (λ e, console_log ("Exception getting session: " ++ e) ;; ret None).

(** [return profile && profile.role === role;]: the value is [null] when
    there is no profile, a boolean otherwise. *)
Definition hasRole (userId : uuid) (role : string) : prog (option bool) :=
  profile ← App.getUserProfile P userId ;
  ret (match profile with
       | None => None
       | Some profile => Some (String.eqb (Profile.role profile) role)
       end).

End session_helpers.

(** ** Characters *)

Module Char.
Definition code (c : ascii) : nat := nat_of_ascii c.
Definition between (lo hi : nat) (c : ascii) : bool :=
  (lo <=? code c)%nat && (code c <=? hi)%nat.
Definition is_digit : ascii → bool := between 48 57.
Definition is_upper : ascii → bool := between 65 90.
Definition is_lower : ascii → bool := between 97 122.
Definition is_alpha (c : ascii) : bool := is_upper c || is_lower c.
Definition is_alphanumeric (c : ascii) : bool := is_alpha c || is_digit c.
Definition lower (c : ascii) : ascii :=
  if is_upper c then ascii_of_nat (code c + 32) else c.
Definition one_of (c : ascii) (set : list ascii) : bool := bool_decide (c ∈ set).
(** The value of a decimal digit. *)
Definition digit_value (c : ascii) : option Z :=
  if is_digit c then Some (Z.of_nat (code c) - 48)%Z else None.
End Char.

(** ** [new URL(url)]

    [isValidHttpsUrl] hands its argument to the platform's URL constructor
    and reads the [protocol] of what comes back.  The constructor is the
    WHATWG basic URL parser run with no base URL; a [TypeError] is [None]. *)

Module Url.

Record URL := {
  protocol : string;  (* the scheme, lower case, and ":" *)
  hostname : string;
  port : option Z;
  rest : string       (* path, query and fragment, as written *)
}.

(** *** A model of the parser for web addresses

    The scheme is parsed as the standard says for every input.  What
    follows it is parsed for the special schemes other than [file] whose
    host is a plain ASCII domain: no IPv6 literal, no percent escape, no
    label starting "xn--" and no label starting with a digit (a last label
    that does could make the host an IPv4 address).  For such a host the
    standard's domain-to-ASCII step is ASCII lower-casing.  Outside this
    fragment the model answers [None]; nothing below rests on that
    answer. *)

Definition is_c0_control_or_space (c : ascii) : bool := (Char.code c <=? 32)%nat.
Definition is_tab_or_newline (c : ascii) : bool :=
  Char.one_of c [ascii_of_nat 9; ascii_of_nat 10; ascii_of_nat 13].

Fixpoint strip_leading (s : list ascii) : list ascii :=
  match s with
  | c :: s' => if is_c0_control_or_space c then strip_leading s' else s
  | [] => []
  end.

(** Steps 1 to 3 of the parser: trim, then drop tabs and newlines. *)
Definition clean (s : list ascii) : list ascii :=
  List.filter (λ c, negb (is_tab_or_newline c))
    (rev (strip_leading (rev (strip_leading s)))).

(** Scheme state: letters, digits, "+", "-" and "." up to a ":". *)
Fixpoint scheme_state (buffer input : list ascii) : option (list ascii * list ascii) :=
  match input with
  | [] => None
  | c :: remaining =>
      if Char.is_alphanumeric c || Char.one_of c ["+"; "-"; "."]%char
      then scheme_state (buffer ++ [Char.lower c]) remaining
      else if Char.one_of c [":"]%char then Some (buffer, remaining)
      else None
  end.

(** Scheme start state; with no base URL, no scheme is a failure. *)
Definition scheme_start_state (input : list ascii) : option (list ascii * list ascii) :=
  match input with
  | c :: remaining =>
      if Char.is_alpha c then scheme_state [Char.lower c] remaining else None
  | [] => None
  end.

Definition is_special_not_file (scheme : string) : bool :=
  bool_decide (scheme ∈ ["ftp"; "http"; "https"; "ws"; "wss"]).

(** Special authority slashes and ignore-slashes states. *)
Fixpoint skip_slashes (s : list ascii) : list ascii :=
  match s with
  | c :: s' => if Char.one_of c ["/"; "\"]%char then skip_slashes s' else s
  | [] => []
  end.

(** The authority ends at the first "/", "?", "#" or "\". *)
Fixpoint split_authority (s : list ascii) : list ascii * list ascii :=
  match s with
  | c :: s' =>
      if Char.one_of c ["/"; "?"; "#"; "\"]%char then ([], s)
      else let '(a, r) := split_authority s' in (c :: a, r)
  | [] => ([], [])
  end.

(** Credentials end at the last "@": [Some] of what follows it. *)
Fixpoint after_last_at (s : list ascii) : option (list ascii) :=
  match s with
  | c :: s' =>
      match after_last_at s' with
      | Some h => Some h
      | None => if Char.one_of c ["@"]%char then Some s' else None
      end
  | [] => None
  end.

(** Host state: the host runs to the first ":". *)
Fixpoint split_port (s : list ascii) : list ascii * option (list ascii) :=
  match s with
  | c :: s' =>
      if Char.one_of c [":"]%char then ([], Some s')
      else let '(h, p) := split_port s' in (c :: h, p)
  | [] => ([], None)
  end.

(** Port state: decimal digits only, at most 65535. *)
Fixpoint port_value (acc : Z) (s : list ascii) : option Z :=
  match s with
  | [] => Some acc
  | c :: s' =>
      match Char.digit_value c with
      | Some v => port_value (10 * acc + v)%Z s'
      | None => None
      end
  end.

Definition default_port (scheme : string) : option Z :=
  if String.eqb scheme "ftp" then Some 21%Z
  else if String.eqb scheme "http" || String.eqb scheme "ws" then Some 80%Z
  else if String.eqb scheme "https" || String.eqb scheme "wss" then Some 443%Z
  else None.

(** The port is kept only when it is not the scheme's default one. *)
Definition port_state (scheme : string) (s : list ascii) : option (option Z) :=
  match s with
  | [] => Some None
  | _ =>
      match port_value 0 s with
      | Some p =>
          if bool_decide (p ≤ 65535)%Z
          then Some (if bool_decide (Some p = default_port scheme) then None else Some p)
          else None
      | None => None
      end
  end.

(** Forbidden domain code points, among ASCII. *)
Definition is_forbidden_domain_code_point (c : ascii) : bool :=
  (Char.code c <=? 32)%nat || (Char.code c =? 127)%nat
  || Char.one_of c ["#"; "/"; ":"; "<"; ">"; "?"; "@"; "["; "\"; "]"; "^"; "|"; "%"]%char.

Fixpoint labels (cur : list ascii) (s : list ascii) : list (list ascii) :=
  match s with
  | [] => [cur]
  | c :: s' =>
      if Char.one_of c ["."]%char then cur :: labels [] s' else labels (cur ++ [c]) s'
  end.

Definition starts_xn (l : list ascii) : bool :=
  match l with
  | a :: b :: c :: d :: _ =>
      bool_decide (map Char.lower [a; b; c; d] = ["x"; "n"; "-"; "-"]%char)
  | _ => false
  end.

Definition starts_with_digit (l : list ascii) : bool :=
  match l with c :: _ => Char.is_digit c | [] => false end.

(** Whether the host is in the fragment described above. *)
Definition plain_ascii_domain (h : list ascii) : bool :=
  forallb (λ c, (Char.code c <? 128)%nat && negb (Char.one_of c ["%"; "["]%char)) h
  && forallb (λ l, negb (starts_xn l) && negb (starts_with_digit l)) (labels [] h).

(** Host parsing of a plain ASCII domain. *)
Definition host_parse (h : list ascii) : option (list ascii) :=
  if negb (plain_ascii_domain h) then None
  else
    let ascii_domain := map Char.lower h in
    match ascii_domain with
    | [] => None
    | _ =>
        if existsb is_forbidden_domain_code_point ascii_domain then None
        else Some ascii_domain
    end.

Definition parse (url : string) : option URL :=
  match scheme_start_state (clean (list_ascii_of_string url)) with
  | None => None
  | Some (scheme, remaining) =>
      let scheme := string_of_list_ascii scheme in
      if negb (is_special_not_file scheme) then None
      else
        let '(authority, path) := split_authority (skip_slashes remaining) in
        let hostport :=
          match after_last_at authority with Some h => h | None => authority end in
        let '(host, port_text) := split_port hostport in
        match host_parse host with
        | None => None
        | Some host =>
            match port_state scheme (default [] port_text) with
            | None => None
            | Some port =>
                Some {| protocol := scheme ++ ":";
                        hostname := string_of_list_ascii host;
                        port := port;
                        rest := string_of_list_ascii path |}
            end
        end
  end.

End Url.

(** ** [isValidHttpsUrl] *)

Section isValidHttpsUrl.
(** [new URL(url)]: [None] when it throws. *)
Context (new_URL : string → option Url.URL).

(** [if (!url) return false;
     try { const parsed = new URL(url); return parsed.protocol === 'https:'; }
     catch { return false; }] *)
Definition isValidHttpsUrl (url : string) : bool :=
  if String.eqb url "" then false
  else
    match new_URL url with
    | Some parsed => String.eqb (Url.protocol parsed) "https:"
    | None => false
    end.
End isValidHttpsUrl.

(** ** Dates of the script engine

    A time value is a count of milliseconds since 1970-01-01T00:00:00Z; NaN
    (an invalid date) is [None].  The definitions are ECMAScript's. *)

Module JsDate.
Local Open Scope Z_scope.

Definition msPerDay : Z := 86400000.

Definition Day (t : Z) : Z := t / msPerDay.

Definition DayFromYear (y : Z) : Z :=
  365 * (y - 1970) + (y - 1969) / 4 - (y - 1901) / 100 + (y - 1601) / 400.

Definition InLeapYear (y : Z) : bool :=
  (bool_decide (y mod 4 = 0) && negb (bool_decide (y mod 100 = 0)))
  || bool_decide (y mod 400 = 0).

(** Days in month [m] (1 to 12) of year [y]. *)
Definition DaysInMonth (y m : Z) : Z :=
  if bool_decide (m = 2) then (if InLeapYear y then 29 else 28)
  else if bool_decide (m ∈ [4; 6; 9; 11]) then 30
  else 31.

(** Days of year [y] before month [m]. *)
Fixpoint days_before (y : Z) (months : nat) : Z :=
  match months with
  | O => 0
  | S k => days_before y k + DaysInMonth y (Z.of_nat (S k))
  end.

(** [MakeDay(y, m - 1, d)] for a month 1 to 12. *)
Definition MakeDay (y m d : Z) : Z :=
  DayFromYear y + days_before y (Z.to_nat (m - 1)) + d - 1.

Definition number (ds : list ascii) : option Z :=
  foldl (λ acc c, a ← acc; v ← Char.digit_value c; Some (10 * a + v)) (Some 0) ds.

(** The fields of the date-only form "YYYY-MM-DD". *)
Definition parse_fields (s : string) : option (Z * Z * Z) :=
  match list_ascii_of_string s with
  | [y1; y2; y3; y4; s1; m1; m2; s2; d1; d2] =>
      if Ascii.eqb s1 "-" && Ascii.eqb s2 "-"
      then
        y ← number [y1; y2; y3; y4];
        m ← number [m1; m2];
        d ← number [d1; d2];
        Some (y, m, d)
      else None
  | _ => None
  end.

(** [Date.parse] on the date-only form, which is read as UTC midnight of
    that day.  The form is the one [isFutureDate] documents for its
    argument; other strings, and days that the month does not have, are
    [None]. *)
Definition parse (s : string) : option Z :=
  match parse_fields s with
  | Some (y, m, d) =>
      if bool_decide (1 ≤ m ≤ 12) && bool_decide (1 ≤ d ≤ DaysInMonth y m)
      then Some (MakeDay y m d * msPerDay)
      else None
  | None => None
  end.

(** The clock and the time zone of the browser: [now] is the value of
    [new Date()], [LocalTZA] the offset of local time from UTC in
    milliseconds (negative west of Greenwich), taken as constant over the
    day. *)
Record env := {
  now : Z;
  LocalTZA : Z
}.

Definition LocalTime (e : env) (t : Z) : Z := t + LocalTZA e.
Definition UTC (e : env) (t : Z) : Z := t - LocalTZA e.

(** [t.setHours(0, 0, 0, 0)]: midnight, local time, of the local day of [t]. *)
Definition setHours_0 (e : env) (t : Z) : Z :=
  UTC e (Day (LocalTime e t) * msPerDay).

(** The calendar day, local time, on which [now] falls. *)
Definition current_date (e : env) : Z := Day (LocalTime e (now e)).

End JsDate.

(** ** [isFutureDate]

    [if (!dateString) return false;
     const inputDate = new Date(dateString);
     const today = new Date(); today.setHours(0, 0, 0, 0);
     return inputDate >= today;]
    A comparison with NaN is false. *)
Definition isFutureDate (e : JsDate.env) (dateString : string) : bool :=
  if String.eqb dateString "" then false
  else
    let inputDate := JsDate.parse dateString in
    let today := JsDate.setHours_0 e (JsDate.now e) in
    match inputDate with
    | Some t => bool_decide (today ≤ t)%Z
    | None => false
    end.

(** ** Strings of the script engine

    A string is a sequence of UTF-16 code units; a regular expression
    without the [u] flag matches code unit by code unit. *)

Module JsString.

Abbreviation code_unit := N.
Abbreviation t := (list N).

(** A literal in ASCII. *)
Definition of_ascii (s : string) : t := N_of_ascii <$> list_ascii_of_string s.

(** WhiteSpace and LineTerminator, the characters of [\s] and the ones
    [parseInt] skips: TAB, LF, VT, FF, CR, SP, NBSP, U+1680,
    U+2000 to U+200A, LS, PS, U+202F, U+205F, U+3000, ZWNBSP. *)
Definition is_white_space (c : code_unit) : bool :=
  bool_decide
    (c ∈ [9; 10; 11; 12; 13; 32; 160; 5760; 8232; 8233; 8239; 8287; 12288; 65279]%N)
  || ((8192 <=? c)%N && (c <=? 8202)%N).

End JsString.


(** ** [formatTime]

    What it takes from the engine: [String.prototype.split] with a
    one-character separator, [parseInt] with radix 10, the remainder of
    Numbers, and the conversion of a Number to a string.  A Number that is
    an integer below 2^53 is modelled by that integer, and NaN by [None];
    [parseInt] of a run of more than 15 digits is outside the model. *)

Module JsNumber.
Local Open Scope Z_scope.

(** [s.split(sep)] for a separator of one code unit: never empty. *)
Fixpoint split (sep : JsString.code_unit) (s : JsString.t) : list JsString.t :=
  match s with
  | [] => [[]]
  | c :: s' =>
      if (c =? sep)%N then [] :: split sep s'
      else
        match split sep s' with
        | part :: parts => (c :: part) :: parts
        | [] => [[c]]
        end
  end.

Definition digit_value (c : JsString.code_unit) : option Z :=
  if ((48 <=? c) && (c <=? 57))%N then Some (Z.of_N c - 48) else None.

Fixpoint skip_white_space (s : JsString.t) : JsString.t :=
  match s with
  | c :: s' => if JsString.is_white_space c then skip_white_space s' else s
  | [] => []
  end.

(** The value of the longest prefix of decimal digits, [None] when the
    prefix is empty. *)
Fixpoint digits_prefix (acc : option Z) (s : JsString.t) : option Z :=
  match s with
  | c :: s' =>
      match digit_value c with
      | Some v => digits_prefix (Some (10 * default 0 acc + v)) s'
      | None => acc
      end
  | [] => acc
  end.

(** [parseInt(string, 10)]: leading white space is skipped, a sign is
    read, then the digits as far as they go; NaN when there is none. *)
Definition parseInt_10 (string : JsString.t) : option Z :=
  match skip_white_space string with
  | 45%N :: s => Z.opp <$> digits_prefix None s   (* "-" *)
  | 43%N :: s => digits_prefix None s             (* "+" *)
  | s => digits_prefix None s
  end.

(** The decimal digits of a natural number, most significant first. *)
Fixpoint digits (fuel : nat) (n : N) (acc : JsString.t) : JsString.t :=
  match fuel with
  | O => acc
  | S fuel =>
      let acc := (48 + n mod 10)%N :: acc in
      if (n <? 10)%N then acc else digits fuel (n / 10)%N acc
  end.

(** [Number::toString] of an integer (below 10^21 in size). *)
Definition toString (z : Z) : JsString.t :=
  let n := Z.to_N (Z.abs z) in
  (if z <? 0 then [45%N] else []) ++ digits (S (N.to_nat (N.log2 n))) n [].

End JsNumber.

(** [if (!timeString) return 'N/A';
     const parts = timeString.split(':');
     const hours = parseInt(parts[0], 10);
     const minutes = parts[1];
     const ampm = hours >= 12 ? 'PM' : 'AM';
     const displayHours = hours % 12 || 12;
     return `${displayHours}:${minutes} ${ampm}`;]
    [None] is a [timeString] that is null or undefined.  [%] takes the sign
    of the dividend ([Z.rem]); a remainder of zero and NaN are both falsy;
    a missing [parts[1]] prints as "undefined". *)
Definition formatTime (timeString : option JsString.t) : JsString.t :=
  match timeString with
  | None | Some [] => JsString.of_ascii "N/A"
  | Some timeString =>
      let parts := JsNumber.split 58%N timeString in
      let hours := JsNumber.parseInt_10 (default [] (parts !! 0%nat)) in
      let minutes := parts !! 1%nat in
      let ampm :=
        match hours with
        | Some h => if (12 <=? h)%Z then "PM" else "AM"
        | None => "AM"
        end in
      let displayHours :=
        match hours with
        | Some h => if (Z.rem h 12 =? 0)%Z then 12%Z else Z.rem h 12
        | None => 12%Z
        end in
      (JsNumber.toString displayHours
       ++ [58%N] ++ default (JsString.of_ascii "undefined") minutes
       ++ [32%N] ++ JsString.of_ascii ampm)%list
  end.

(** ** Regular expressions

    The fragment of the pattern grammar that [emailRegex] uses, with
    ECMAScript's reading of it: a class of characters, sequence, and the
    quantifiers.  [test] decides a match of the whole input, which is what
    a pattern between [^] and [$] asks for when the [m] flag is off. *)

Module RegExp.

Inductive class_atom : Type :=
| Single (c : JsString.code_unit)   (* a character *)
| WhiteSpace.                       (* \s *)

Inductive pattern : Type :=
| Class (negated : bool) (atoms : list class_atom)   (* [...] and [^...] *)
| Eps
| Seq (p q : pattern)
| Alt (p q : pattern)
| Star (p : pattern).

Definition Char (c : JsString.code_unit) : pattern := Class false [Single c].
Definition Plus (p : pattern) : pattern := Seq p (Star p).
(** The class with no member, which no character matches. *)
Definition Nothing : pattern := Class false [].

Definition atom_matches (c : JsString.code_unit) (a : class_atom) : bool :=
  match a with
  | Single c' => bool_decide (c = c')
  | WhiteSpace => JsString.is_white_space c
  end.

Definition class_matches (negated : bool) (atoms : list class_atom)
    (c : JsString.code_unit) : bool :=
  xorb negated (existsb (atom_matches c) atoms).

Fixpoint nullable (p : pattern) : bool :=
  match p with
  | Class _ _ => false
  | Eps => true
  | Seq p q => nullable p && nullable q
  | Alt p q => nullable p || nullable q
  | Star _ => true
  end.

(** What is left of [p] to match once [c] has been read. *)
Fixpoint derivative (c : JsString.code_unit) (p : pattern) : pattern :=
  match p with
  | Class negated atoms => if class_matches negated atoms c then Eps else Nothing
  | Eps => Nothing
  | Seq p q =>
      if nullable p
      then Alt (Seq (derivative c p) q) (derivative c q)
      else Seq (derivative c p) q
  | Alt p q => Alt (derivative c p) (derivative c q)
  | Star p => Seq (derivative c p) (Star p)
  end.

Definition test (p : pattern) (s : JsString.t) : bool :=
  nullable (foldl (λ p c, derivative c p) p s).

(** The strings a pattern matches. *)
Inductive matches : pattern → JsString.t → Prop :=
| matches_class negated atoms c :
    class_matches negated atoms c = true → matches (Class negated atoms) [c]
| matches_eps : matches Eps []
| matches_seq p q s t : matches p s → matches q t → matches (Seq p q) (s ++ t)
| matches_alt_l p q s : matches p s → matches (Alt p q) s
| matches_alt_r p q s : matches q s → matches (Alt p q) s
| matches_star_nil p : matches (Star p) []
| matches_star_more p s t :
    matches p s → matches (Star p) t → matches (Star p) (s ++ t).

End RegExp.

(** ** [isValidEmail]

    [const emailRegex = /^[^\s@]+@[^\s@]+\.[^\s@]+$/;
     return emailRegex.test(email);] *)

Definition emailRegex : RegExp.pattern :=
  let other := RegExp.Class true [RegExp.WhiteSpace; RegExp.Single 64%N] in
  RegExp.Seq (RegExp.Plus other)
    (RegExp.Seq (RegExp.Char 64%N)
       (RegExp.Seq (RegExp.Plus other)
          (RegExp.Seq (RegExp.Char 46%N) (RegExp.Plus other)))).

Definition isValidEmail (email : JsString.t) : bool :=
  RegExp.test emailRegex email.

(** ** Calendar fields of a date

    [YearFromTime], [MonthFromTime] and [DateFromTime] of ECMAScript, on the
    day number [Day(t)].  [YearFromDay] is the largest year that starts on
    or before the day; it is computed from an estimate that is off by one
    year at most. *)

Module JsCalendar.
Import JsDate.
Local Open Scope Z_scope.

Definition YearFromDay (day : Z) : Z :=
  let y := 1970 + day * 400 / 146097 in
  if bool_decide (day < DayFromYear y) then y - 1
  else if bool_decide (DayFromYear (y + 1) ≤ day) then y + 1
  else y.

Definition DayWithinYear (day : Z) : Z := day - DayFromYear (YearFromDay day).

(** The month, 0 to 11. *)
Definition MonthFromDay (day : Z) : Z :=
  let d := DayWithinYear day in
  let leap := if InLeapYear (YearFromDay day) then 1 else 0 in
  if d <? 31 then 0
  else if d <? 59 + leap then 1
  else if d <? 90 + leap then 2
  else if d <? 120 + leap then 3
  else if d <? 151 + leap then 4
  else if d <? 181 + leap then 5
  else if d <? 212 + leap then 6
  else if d <? 243 + leap then 7
  else if d <? 273 + leap then 8
  else if d <? 304 + leap then 9
  else if d <? 334 + leap then 10
  else 11.

(** The day of the month, 1 to 31. *)
Definition DateFromDay (day : Z) : Z :=
  let d := DayWithinYear day in
  let leap := if InLeapYear (YearFromDay day) then 1 else 0 in
  let m := MonthFromDay day in
  if m =? 0 then d + 1
  else if m =? 1 then d - 30
  else if m =? 2 then d - 58 - leap
  else if m =? 3 then d - 89 - leap
  else if m =? 4 then d - 119 - leap
  else if m =? 5 then d - 150 - leap
  else if m =? 6 then d - 180 - leap
  else if m =? 7 then d - 211 - leap
  else if m =? 8 then d - 242 - leap
  else if m =? 9 then d - 272 - leap
  else if m =? 10 then d - 303 - leap
  else d - 333 - leap.

(** [getFullYear()], [getMonth()] and [getDate()] of the date with time
    value [t], which read the local time. *)
Definition getFullYear (e : env) (t : Z) : Z := YearFromDay (Day (LocalTime e t)).
Definition getMonth (e : env) (t : Z) : Z := MonthFromDay (Day (LocalTime e t)).
Definition getDate (e : env) (t : Z) : Z := DateFromDay (Day (LocalTime e t)).

End JsCalendar.

(** ** [calculateAge] and [isValidTherapistAge]

    [if (!dobString) return null;
     const dob = new Date(dobString);
     const today = new Date();
     let age = today.getFullYear() - dob.getFullYear();
     const monthDiff = today.getMonth() - dob.getMonth();
     if (monthDiff < 0 || (monthDiff === 0 && today.getDate() < dob.getDate())) age--;
     return age;]
    The result is [None] for null, [Some None] for NaN (the fields of an
    invalid date are NaN, so is their difference, and a comparison with
    NaN is false), [Some (Some n)] for the number [n].  [new Date] is
    [JsDate.parse], which reads the date-only form YYYY-MM-DD that the
    date fields of the pages give. *)
Definition calculateAge (e : JsDate.env) (dobString : string) : option (option Z) :=
  if String.eqb dobString "" then None
  else
    match JsDate.parse dobString with
    | None => Some None
    | Some dob =>
        let today := JsDate.now e in
        let age := (JsCalendar.getFullYear e today - JsCalendar.getFullYear e dob)%Z in
        let monthDiff := (JsCalendar.getMonth e today - JsCalendar.getMonth e dob)%Z in
        if (monthDiff <? 0)%Z
           || ((monthDiff =? 0)%Z
               && (JsCalendar.getDate e today <? JsCalendar.getDate e dob)%Z)
        then Some (Some (age - 1)%Z)
        else Some (Some age)
    end.

(** [const age = calculateAge(dobString); return age !== null && age >= 18;] *)
Definition isValidTherapistAge (e : JsDate.env) (dobString : string) : bool :=
  match calculateAge e dobString with
  | Some (Some age) => (18 <=? age)%Z
  | Some None => false
  | None => false
  end.

(** ** [debounce]

    [function debounce(func, wait = 300) {
       let timeout;
       return function executedFunction(...args) {
         const later = () => { clearTimeout(timeout); func(...args); };
         clearTimeout(timeout);
         timeout = setTimeout(later, wait);
       };
     }]
    The timers are the browser's: [setTimeout] hands out an id that it has
    not used before and keeps the callback until the delay has passed,
    [clearTimeout] drops it, and a callback that is due runs once, at a time
    the browser chooses.  The only callbacks here are [later] closures, so a
    pending timer is kept as its due time and the [args] its closure holds. *)

Module Debounce.
Local Open Scope Z_scope.
Local Open Scope list_scope.

Section debounce.
Context {Args : Type}.
(** [wait], in milliseconds *)
Context (wait : Z).

Record state := {
  clock : Z;                       (* the time of the last event *)
  next_id : positive;              (* the next id [setTimeout] hands out *)
  pending : gmap positive (Z * Args);  (* the browser's timers *)
  timeout : option positive;       (* the variable [timeout] of the closure *)
  calls : list (Z * Args)          (* [func(...args)] so far, newest first *)
}.

Definition initial : state :=
  {| clock := 0; next_id := 1%positive; pending := ∅; timeout := None;
     calls := [] |}.

Definition clearTimeout (id : option positive) (timers : gmap positive (Z * Args))
    : gmap positive (Z * Args) :=
  match id with
  | Some id => delete id timers
  | None => timers
  end.

(** [executedFunction(...args)] at time [t]. *)
Definition executedFunction (t : Z) (args : Args) (s : state) : state :=
  let timers := clearTimeout (timeout s) (pending s) in
  let id := next_id s in
  {| clock := t;
     next_id := (id + 1)%positive;
     pending := <[id := (t + wait, args)]> timers;
     timeout := Some id;
     calls := calls s |}.

(** The callback [later] of a timer, run at time [t]. *)
Definition later (t : Z) (args : Args) (s : state) : state :=
  {| clock := t;
     next_id := next_id s;
     pending := clearTimeout (timeout s) (pending s);
     timeout := timeout s;
     calls := (t, args) :: calls s |}.

Inductive event : Type :=
| Call (t : Z) (args : Args)       (* the debounced function is called *)
| Fire (t : Z) (id : positive).    (* the browser runs timer [id] *)

Definition time (e : event) : Z :=
  match e with Call t _ | Fire t _ => t end.

(** One event; [None] for an event that cannot happen: time running
    backwards, or a timer run that is not pending or not yet due. *)
Definition step (s : state) (e : event) : option state :=
  if bool_decide (time e < clock s) then None
  else
    match e with
    | Call t args => Some (executedFunction t args s)
    | Fire t id =>
        match pending s !! id with
        | Some (due, args) =>
            if bool_decide (due ≤ t)
            then Some (later t args
                         {| clock := clock s;
                            next_id := next_id s;
                            pending := delete id (pending s);
                            timeout := timeout s;
                            calls := calls s |})
            else None
        | None => None
        end
    end.

Definition run (es : list event) (s : state) : option state :=
  foldl (λ s e, s ≫= λ s, step s e) (Some s) es.

(** The timers between two events: none when no call has been made or a
    timer has just run, and after a call the one timer that the call has
    set. *)
Definition timers_as_left (es : list event) (s : state) : Prop :=
  (pending s = ∅ ∧ (es = [] ∨ ∃ es' t id, es = es' ++ [Fire t id]))
  ∨ ∃ es' t0 args id,
      es = es' ++ [Call t0 args]
      ∧ timeout s = Some id
      ∧ pending s = {[ id := (t0 + wait, args) ]}.

End debounce.

Arguments state : clear implicits.
Arguments event : clear implicits.

End Debounce.

(** * The specification's vocabulary

    The predicates and the transition table below follow the words of the
    specification (sections 4.1, 4.2 and 7); the theorems compare the
    schema with them. *)

Module Spec.

(** Section 4.1.  A principal is the identity of a signed-in caller; its
    role is the one its profile carries in the store. *)
Definition isSelf (principal : uuid) (b : Booking.row) : Prop :=
  Booking.user_id b = principal.

Definition isAssignedTherapist (principal : uuid) (b : Booking.row) : Prop :=
  Booking.therapist_id b = principal.

Definition isAdmin (d : db) (principal : uuid) : Prop :=
  ∃ k p, profiles d !! k = Some p
         ∧ Profile.user_id p = principal ∧ Profile.role p = "admin".

Definition canRead (d : db) (principal : uuid) (b : Booking.row) : Prop :=
  isSelf principal b ∨ isAssignedTherapist principal b ∨ isAdmin d principal.

Definition canViewTherapistPublicly (t : Therapist.row) : bool :=
  bool_decide (Therapist.approval_status t = Some "approved")
  && bool_decide (Therapist.Active t = Some true).

(** Section 4.2: the edges of the status machine that a patient or a
    therapist may take. *)
Definition transition (from to : string) : bool :=
  bool_decide
    ((from, to) ∈ [("pending", "confirmed"); ("pending", "rejected");
                   ("confirmed", "completed");
                   ("pending", "cancelled"); ("confirmed", "cancelled")]).

(** Section 7. *)
Inductive error : Type :=
| Unauthenticated
| Forbidden
| InvalidTransition
| ValidationError
| NotFound
| ConflictError.

End Spec.

(** Modelled from the spec: booking creation.  The page script that creates
    a booking is not among the sources ([app.js] holds the validator it
    would call, the schema the table it writes to), so the operation is put
    together from sections 4.2, 6 and 7: the caller must be authenticated,
    the session date must pass [isFutureDate], the therapist must resolve to
    a record the directory shows as approved and active, and the row is
    inserted with the therapist's fee as its amount and the default
    status. *)
Module Lifecycle.

Record request := {
  therapistRef : uuid;
  sessionDate : string;   (* "YYYY-MM-DD", as the date field gives it *)
  startTime : string;
  endTime : option string;
  patientName : option string;
  patientEmail : option string;
  problemDescription : option string
}.

Definition booking_row (patientRef : uuid) (day : date) (fee : Z) (r : request)
    : Booking.insert_row :=
  {| Booking.i_id := DEFAULT;
     Booking.i_user_id := patientRef;
     Booking.i_therapist_id := therapistRef r;
     Booking.i_session_date := day;
     Booking.i_start_time := startTime r;
     Booking.i_end_time := endTime r;
     Booking.i_amount := fee;
     Booking.i_status := DEFAULT;
     Booking.i_patient_name := patientName r;
     Booking.i_patient_email := patientEmail r;
     Booking.i_problem_description := problemDescription r;
     Booking.i_meeting_link := None;
     Booking.i_session_notes := None;
     Booking.i_next_session_notes := None;
     Booking.i_reschedule_requested := DEFAULT;
     Booking.i_reschedule_new_date := None;
     Booking.i_reschedule_new_start_time := None;
     Booking.i_reschedule_reason := None;
     Booking.i_therapist_reschedule_requested := DEFAULT;
     Booking.i_therapist_reschedule_date := None;
     Booking.i_therapist_reschedule_time := None;
     Booking.i_therapist_reschedule_reason := None;
     Booking.i_created_at := DEFAULT;
     Booking.i_updated_at := DEFAULT |}.

Definition of_sql_error (e : sql_error) : Spec.error :=
  match e with
  | rls_violation => Spec.Forbidden
  | check_violation | not_null_violation => Spec.ValidationError
  | foreign_key_violation => Spec.NotFound
  | unique_violation => Spec.ConflictError
  end.

Definition createBooking (e : JsDate.env) (principal : option uuid)
    (now : timestamptz) (random_uuid : uuid) (r : request) (d : db)
    : (Spec.error + Booking.row) * db :=
  match principal with
  | None => (inl Spec.Unauthenticated, d)
  | Some patientRef =>
      if negb (isFutureDate e (sessionDate r)) then (inl Spec.ValidationError, d)
      else
        match
          select_Therapists principal
            (λ t, bool_decide (Therapist.id t = therapistRef r)
                  && Spec.canViewTherapistPublicly t) d
        with
        | [] => (inl Spec.NotFound, d)
        | t :: _ =>
            let day := JsDate.Day (default 0%Z (JsDate.parse (sessionDate r))) in
            let i := booking_row patientRef day (Therapist.fee t) r in
            match insert_Bookings principal now random_uuid i d with
            | (Done _, d') => (inr (Booking.with_defaults now random_uuid i), d')
            | (Failed err, d') => (inl (of_sql_error err), d')
            end
        end
  end.

End Lifecycle.

(** * Integrity of the stored data

    What the primary keys, the foreign keys and the CHECK constraints
    promise of a database. *)

Record wf (d : db) : Prop := {
  wf_auth_users_key : ∀ k u, auth_users d !! k = Some u → AuthUser.id u = k;
  wf_profiles_key : ∀ k p, profiles d !! k = Some p → Profile.user_id p = k;
  wf_Therapists_key : ∀ k t, Therapists d !! k = Some t → Therapist.id t = k;
  wf_Bookings_key : ∀ k b, Bookings d !! k = Some b → Booking.id b = k;
  wf_profiles_fk : ∀ k p, profiles d !! k = Some p → is_Some (auth_users d !! k);
  wf_Therapists_fk :
    ∀ k t, Therapists d !! k = Some t → is_Some (profiles d !! Therapist.user_id t);
  wf_Bookings_fk_user :
    ∀ k b, Bookings d !! k = Some b → is_Some (profiles d !! Booking.user_id b);
  wf_Bookings_fk_therapist :
    ∀ k b, Bookings d !! k = Some b → is_Some (Therapists d !! Booking.therapist_id b);
  wf_profiles_check : ∀ k p, profiles d !! k = Some p → Profile.check_role p = true;
  wf_Therapists_check : ∀ k t, Therapists d !! k = Some t → Therapist.checks t = true;
  wf_Bookings_check : ∀ k b, Bookings d !! k = Some b → Booking.checks b = true
}.


(** * A history to run the statements on

    Four people sign up: a patient, a therapist, the person who is then made
    admin in the SQL editor, and somebody with no part in the booking.  The
    therapist registers, the admin approves, the patient books, and the
    therapist confirms the session and marks it completed. *)

Module Scenario.

Definition patient : uuid := 1%positive.
Definition therapist : uuid := 2%positive.
Definition admin : uuid := 3%positive.
Definition stranger : uuid := 4%positive.
Definition booking : uuid := 7%positive.

Definition new_user (id : uuid) (email : string) (meta : gmap string string)
    : AuthUser.row :=
  {| AuthUser.id := id; AuthUser.email := Some email;
     AuthUser.raw_user_meta_data := meta |}.

Definition therapist_signup : Therapist.insert_row :=
  {| Therapist.i_id := therapist;
     Therapist.i_user_id := therapist;
     Therapist.i_Name := "T";
     Therapist.i_email := "t@example.com";
     Therapist.i_phone := None;
     Therapist.i_Specialization := "Anxiety";
     Therapist.i_fee := 100;
     Therapist.i_bio := None;
     Therapist.i_experience := Some 5%Z;
     Therapist.i_license := None;
     Therapist.i_Active := DEFAULT;
     Therapist.i_approval_status := DEFAULT;
     Therapist.i_created_at := DEFAULT |}.

Definition the_request : Lifecycle.request :=
  {| Lifecycle.therapistRef := therapist;
     Lifecycle.sessionDate := "2024-01-20";
     Lifecycle.startTime := "10:00";
     Lifecycle.endTime := None;
     Lifecycle.patientName := Some "P";
     Lifecycle.patientEmail := Some "p@example.com";
     Lifecycle.problemDescription := None |}.

Definition registered : list statement :=
  [ SignUp 100 (new_user patient "p@example.com" ∅);
    SignUp 101 (new_user therapist "t@example.com" {[ "role" := "therapist" ]});
    SignUp 102 (new_user admin "a@example.com" ∅);
    PromoteToAdmin 103 "a@example.com";
    SignUp 104 (new_user stranger "s@example.com" ∅);
    InsertTherapist (Some therapist) 105 therapist_signup ].

Definition people : list statement :=
  registered
  ++ [ UpdateTherapist (Some admin) therapist
         (Therapist.set_approval_status (Some "approved")) ].

Definition booked : list statement :=
  people
  ++ [ InsertBooking (Some patient) 106 booking
         (Lifecycle.booking_row patient 19742 100 the_request) ].

Definition confirmed : list statement :=
  booked
  ++ [ UpdateBooking (Some therapist) 107 booking
         (Booking.set_status (Some "confirmed")) ].

Definition completed : list statement :=
  confirmed
  ++ [ UpdateBooking (Some therapist) 108 booking
         (Booking.set_status (Some "completed")) ].

(** Both parties propose a new time for the pending booking. *)
Definition patient_proposed : list statement :=
  booked
  ++ [ UpdateBooking (Some patient) 107 booking
         (Booking.set_reschedule_requested (Some true)) ].

Definition both_proposed : list statement :=
  patient_proposed
  ++ [ UpdateBooking (Some therapist) 108 booking
         (Booking.set_therapist_reschedule_requested (Some true)) ].

(** A second therapist signs up and registers; the admin has not decided
    on the application. *)
Definition applicant : uuid := 5%positive.

Definition applicant_signup : Therapist.insert_row :=
  {| Therapist.i_id := applicant;
     Therapist.i_user_id := applicant;
     Therapist.i_Name := "U";
     Therapist.i_email := "u@example.com";
     Therapist.i_phone := None;
     Therapist.i_Specialization := "Anxiety";
     Therapist.i_fee := 80;
     Therapist.i_bio := None;
     Therapist.i_experience := None;
     Therapist.i_license := None;
     Therapist.i_Active := DEFAULT;
     Therapist.i_approval_status := DEFAULT;
     Therapist.i_created_at := DEFAULT |}.

Definition with_applicant : list statement :=
  people
  ++ [ SignUp 106 (new_user applicant "u@example.com" {[ "role" := "therapist" ]});
       InsertTherapist (Some applicant) 107 applicant_signup ].

(** The patient books with both reschedule flags set from the start. *)
Definition proposed_on_both_sides : Booking.insert_row :=
  {| Booking.i_id := DEFAULT;
     Booking.i_user_id := patient;
     Booking.i_therapist_id := therapist;
     Booking.i_session_date := 19742;
     Booking.i_start_time := "10:00";
     Booking.i_end_time := None;
     Booking.i_amount := 100;
     Booking.i_status := DEFAULT;
     Booking.i_patient_name := None;
     Booking.i_patient_email := None;
     Booking.i_problem_description := None;
     Booking.i_meeting_link := None;
     Booking.i_session_notes := None;
     Booking.i_next_session_notes := None;
     Booking.i_reschedule_requested := VALUE (Some true);
     Booking.i_reschedule_new_date := Some 19743%Z;
     Booking.i_reschedule_new_start_time := Some "11:00";
     Booking.i_reschedule_reason := None;
     Booking.i_therapist_reschedule_requested := VALUE (Some true);
     Booking.i_therapist_reschedule_date := Some 19744%Z;
     Booking.i_therapist_reschedule_time := Some "12:00";
     Booking.i_therapist_reschedule_reason := None;
     Booking.i_created_at := DEFAULT;
     Booking.i_updated_at := DEFAULT |}.

Definition booked_open : list statement :=
  people ++ [ InsertBooking (Some patient) 106 booking proposed_on_both_sides ].

(** The patient makes themself admin. *)
Definition self_promoted : list statement :=
  people ++ [ UpdateProfile (Some patient) 106 patient (Profile.set_role "admin") ].

(** A browser in New York (five hours behind UTC) at ten in the morning
    of 15 January 2024, and one in Delhi (five and a half hours ahead) at
    the same instant. *)
Definition new_york : JsDate.env :=
  {| JsDate.now := 1705330800000; JsDate.LocalTZA := -18000000 |}.
Definition delhi : JsDate.env :=
  {| JsDate.now := 1705330800000; JsDate.LocalTZA := 19800000 |}.

Definition request_for (day : string) : Lifecycle.request :=
  {| Lifecycle.therapistRef := therapist;
     Lifecycle.sessionDate := day;
     Lifecycle.startTime := "16:00";
     Lifecycle.endTime := None;
     Lifecycle.patientName := Some "P";
     Lifecycle.patientEmail := Some "p@example.com";
     Lifecycle.problemDescription := None |}.

(** A therapist whose application the admin has not decided yet, at the
    door of the therapist dashboard. *)
Definition pending_therapist : App.platform :=
  {| App.auth_getUser :=
       Js.Normal {| App.data := Some {| App.id := therapist |}; App.error := None |};
     App.profiles_single := λ u,
       Js.Normal
         {| App.data := profiles (run_all registered empty_db) !! u;
            App.error := None |};
     App.Therapists_approval_status_single := λ u,
       Js.Normal
         {| App.data :=
              Therapist.approval_status
                <$> Therapists (run_all registered empty_db) !! u;
            App.error := None |};
     App.auth_signOut := Js.Normal tt;
     App.location_pathname := "/therapist-dashboard.html" |}.

Definition first_signup_db : db := run_all (take 1 registered) empty_db.
Definition registered_db : db := run_all registered empty_db.
Definition directory_db : db := run_all people empty_db.
Definition confirmed_db : db := run_all confirmed empty_db.
Definition patient_proposed_db : db := run_all patient_proposed empty_db.
Definition applicant_db : db := run_all with_applicant empty_db.
Definition booked_open_db : db := run_all booked_open empty_db.
Definition self_promoted_db : db := run_all self_promoted empty_db.
Definition both_proposed_db : db := run_all both_proposed empty_db.
Definition pending_db : db := run_all booked empty_db.
Definition completed_db : db := run_all completed empty_db.

End Scenario.

(** * Callers and values, as the theorems name them *)

(** A caller who is not an admin: not signed in, or signed in with a
    profile whose role is not 'admin'. *)
Definition non_admin (d : db) (auth_uid : option uuid) : Prop :=
  ¬ ∃ u, auth_uid = Some u ∧ Spec.isAdmin d u.

(** The values the CHECK constraint on [status] lets through. *)
Definition allowed_status (v : option string) : Prop :=
  v = None
  ∨ ∃ s, v = Some s
         ∧ s ∈ ["pending"; "confirmed"; "completed"; "cancelled"; "rejected"].

(** * The claims that the schema does not bear out, as they are stated

    Each is the specification's sentence read over the statements above; the
    theorems refute them on the history of [Scenario] and prove what holds
    in their place. *)

Module AsStated.

(** A statement is rejected when it fails with an error. *)
Definition rejected (result : outcome * db) : Prop := ∃ e, result.1 = Failed e.

(** "Any transition not in this table is rejected as an
    invalid-state-transition error" and leaves the stored status as it
    was. *)
Definition status_changes_follow_the_table : Prop :=
  ∀ d auth_uid now k old from to,
    reachable d →
    Bookings d !! k = Some old →
    Booking.status old = Some from →
    non_admin d auth_uid →
    to ≠ from →
    Spec.transition from to = false →
    rejected (update_Bookings auth_uid now k (Booking.set_status (Some to)) d)
    ∧ Booking.status
        <$> Bookings
              (update_Bookings auth_uid now k (Booking.set_status (Some to)) d).2
            !! k
        = Some (Some from).

(** "Only the assigned therapist can move a booking from pending to
    confirmed or rejected; any other principal attempting this receives
    Forbidden", and the booking is unchanged. *)
Definition only_the_therapist_decides : Prop :=
  ∀ d (principal : uuid) now k old to,
    reachable d →
    Bookings d !! k = Some old →
    Booking.status old = Some "pending" →
    to ∈ ["confirmed"; "rejected"] →
    principal ≠ Booking.therapist_id old →
    rejected (update_Bookings (Some principal) now k (Booking.set_status (Some to)) d)
    ∧ Bookings
        (update_Bookings (Some principal) now k (Booking.set_status (Some to)) d).2
      !! k
      = Some old.

(** "At most one of the two reschedule sub-states may be open at once." *)
Definition reschedule_channels_exclusive : Prop :=
  ∀ d k b,
    reachable d →
    Bookings d !! k = Some b →
    ¬ (Booking.reschedule_requested b = Some true
       ∧ Booking.therapist_reschedule_requested b = Some true).

(** "role ... may only be changed by an admin or an out-of-band
    operation", never by the principal themself. *)
Definition role_not_changed_by_oneself : Prop :=
  ∀ d (principal : uuid) now set p,
    reachable d →
    profiles d !! principal = Some p →
    ¬ Spec.isAdmin d principal →
    Profile.role
      <$> profiles (update_profiles (Some principal) now principal set d).2
          !! principal
      = Some (Profile.role p).

(** "createdAt (immutable)": every successful mutation leaves created_at
    equal to its value at creation. *)
Definition created_at_immutable : Prop :=
  ∀ d auth_uid now k set old d',
    reachable d →
    Bookings d !! k = Some old →
    update_Bookings auth_uid now k set d = (Done 1, d') →
    Booking.created_at <$> Bookings d' !! k = Some (Booking.created_at old).

End AsStated.

(** * Proof automation *)

(** Turns the tests a statement passed into facts. *)
Ltac passed :=
  repeat match goal with
    | H : negb _ = false |- _ => apply negb_false_iff in H
    | H : negb _ = true |- _ => apply negb_true_iff in H
    | H : _ && _ = true |- _ => apply andb_true_iff in H as [? ?]
    | H : _ || _ = false |- _ => apply orb_false_iff in H as [? ?]
    | H : has_key _ _ = true |- _ =>
        unfold has_key in H; apply bool_decide_eq_true in H
    | H : has_key _ _ = false |- _ =>
        unfold has_key in H; apply bool_decide_eq_false in H;
        apply eq_None_not_Some in H
    | H : bool_decide _ = true |- _ => apply bool_decide_eq_true in H
    | H : bool_decide _ = false |- _ => apply bool_decide_eq_false in H
    end.

(** Follows a statement down each of its branches. *)
Ltac branches := repeat (case_match; simpl; try done); passed.

(** Unfolds a page script down to the answers of the platform. *)
Ltac run_prog :=
  unfold App.guardDashboard, App.redirectByRole, hasRole, getCurrentSession,
    App.getCurrentUser, App.getUserProfile,
    Js.try_catch, Js.await, Js.console_log, Js.set_location_href,
    Js.mark_signed_out, mbind, prog_bind, Js.bind, Js.ret.

(** * Theorems *)

(** ** Three-valued logic *)

Lemma qualifies_sql_or a b : qualifies (sql_or a b) = qualifies a || qualifies b.
Proof. by destruct a as [[]|], b as [[]|]. Qed.

Lemma qualifies_sql_and a b : qualifies (sql_and a b) = qualifies a && qualifies b.
Proof. by destruct a as [[]|], b as [[]|]. Qed.

Lemma qualifies_Some b : qualifies (Some b) = b.
Proof. by destruct b. Qed.

Lemma qualifies_sql_eq {A} `{EqDecision A} (x y : option A) :
  qualifies (sql_eq x y) = true ↔ ∃ v, x = Some v ∧ y = Some v.
Proof.
  destruct x as [a|], y as [b|]; unfold sql_eq.
  - rewrite qualifies_Some, bool_decide_eq_true. split.
    + intros ->. by exists b.
    + by intros (v & [= ->] & [= ->]).
  - split; [done | by intros (? & _ & ?)].
  - split; [done | by intros (? & ? & _)].
  - split; [done | by intros (? & ? & _)].
Qed.

Lemma qualifies_auth_uid (auth_uid : option uuid) (owner : uuid) :
  qualifies (sql_eq auth_uid (Some owner)) = true ↔ auth_uid = Some owner.
Proof.
  rewrite qualifies_sql_eq. split.
  - by intros (v & -> & [= ->]).
  - intros ->. by exists owner.
Qed.

(** ** The admin subquery *)

Lemma caller_is_admin_true d auth_uid :
  qualifies (caller_is_admin d auth_uid) = true
  ↔ ∃ u, auth_uid = Some u ∧ Spec.isAdmin d u.
Proof.
  unfold caller_is_admin, Spec.isAdmin, map_Exists.
  rewrite qualifies_Some, bool_decide_eq_true. split.
  - intros (k & p & Hp & Hq). apply Is_true_true in Hq.
    rewrite qualifies_sql_and, andb_true_iff, !qualifies_sql_eq in Hq.
    destruct Hq as [(u & [= Hu] & ->) (r & [= Hr] & [= Hadmin])].
    exists u. split; [done|]. exists k, p. by rewrite Hr, <- Hadmin.
  - intros (u & -> & k & p & Hp & Hu & Hr). exists k, p. split; [done|].
    apply Is_true_true.
    rewrite qualifies_sql_and, andb_true_iff, !qualifies_sql_eq.
    split; [exists u | exists "admin"]; by rewrite ?Hu, ?Hr.
Qed.

(** The subquery of the admin policies answers as the helper [is_admin]
    does. *)
Lemma is_admin_true d u : is_admin d u = true ↔ Spec.isAdmin d u.
Proof. unfold is_admin. by rewrite bool_decide_eq_true. Qed.

Lemma caller_is_admin_is_admin d u :
  caller_is_admin d (Some u) = Some (is_admin d u).
Proof.
  assert (qualifies (caller_is_admin d (Some u)) = is_admin d u) as H.
  { apply eq_true_iff_eq. rewrite is_admin_true, caller_is_admin_true. split.
    - by intros (? & [= <-] & ?).
    - intros ?. by exists u. }
  unfold caller_is_admin in *. by rewrite qualifies_Some in H; rewrite H.
Qed.

Lemma caller_is_admin_not_signed_in d : qualifies (caller_is_admin d None) = false.
Proof.
  apply not_true_is_false. rewrite caller_is_admin_true. naive_solver.
Qed.

(** ** Who reads and who writes a booking *)

Lemma Bookings_select_true d auth_uid b :
  Bookings_select d auth_uid b = true
  ↔ ∃ u, auth_uid = Some u ∧ Spec.canRead d u b.
Proof.
  unfold Bookings_select, Users_can_view_own_bookings,
    Therapist_can_view_assigned_bookings, Admin_can_view_all_bookings,
    Spec.canRead, Spec.isSelf, Spec.isAssignedTherapist.
  rewrite !qualifies_sql_or, !orb_true_iff, !qualifies_auth_uid, caller_is_admin_true.
  naive_solver.
Qed.

Lemma elem_of_rows {A} (t : gmap uuid A) (r : A) :
  r ∈ rows t ↔ ∃ k, t !! k = Some r.
Proof.
  unfold rows. rewrite list_elem_of_fmap. split.
  - intros ([k r'] & -> & H%elem_of_map_to_list). by exists k.
  - intros (k & H). exists (k, r). by rewrite elem_of_map_to_list.
Qed.

Lemma elem_of_List_filter {A} (f : A → bool) (l : list A) (x : A) :
  x ∈ List.filter f l ↔ x ∈ l ∧ f x = true.
Proof. rewrite !list_elem_of_In. apply filter_In. Qed.


(** The pending booking of [Scenario], as each of the four people and a
    caller who is not signed in reads the table. *)
Example booking_read_access_in_scenario :
  let all := select_Bookings (Some Scenario.admin) (λ _, true) Scenario.pending_db in
  length all = 1%nat
  ∧ select_Bookings (Some Scenario.patient) (λ _, true) Scenario.pending_db = all
  ∧ select_Bookings (Some Scenario.therapist) (λ _, true) Scenario.pending_db = all
  ∧ select_Bookings (Some Scenario.stranger) (λ _, true) Scenario.pending_db = []
  ∧ select_Bookings None (λ _, true) Scenario.pending_db = [].
Proof. by vm_compute. Qed.

(** ** The public directory *)

Lemma Therapists_select_public d t :
  Therapists_select d None t = Spec.canViewTherapistPublicly t.
Proof.
  unfold Therapists_select, Public_can_view_approved_active_therapists,
    Therapist_can_view_own_therapist_record, Admin_can_view_all_therapists,
    Spec.canViewTherapistPublicly.
  rewrite !qualifies_sql_or, qualifies_sql_and, caller_is_admin_not_signed_in.
  simpl. rewrite !orb_false_r.
  f_equal; apply eq_true_iff_eq; rewrite qualifies_sql_eq, bool_decide_eq_true;
    naive_solver.
Qed.


(** With one therapist approved and one still pending, the public sees
    the approved one only; the applicant also sees their own record, and the
    admin sees both. *)
Example public_directory_in_scenario :
  Therapist.id <$> select_Therapists None (λ _, true) Scenario.applicant_db
  = [Scenario.therapist]
  ∧ Therapist.id
      <$> select_Therapists (Some Scenario.applicant) (λ _, true) Scenario.applicant_db
    = [Scenario.applicant; Scenario.therapist]
  ∧ Therapist.id
      <$> select_Therapists (Some Scenario.admin) (λ _, true) Scenario.applicant_db
    = [Scenario.applicant; Scenario.therapist]
  ∧ Therapist.approval_status
      <$> Therapists Scenario.applicant_db !! Scenario.applicant
    = Some (Some "pending").
Proof. by vm_compute. Qed.

(** ** Integrity is kept by every statement *)

Lemma is_Some_insert_mono {A} (m : gmap uuid A) (k j : uuid) (x : A) :
  is_Some (m !! j) → is_Some (<[k := x]> m !! j).
Proof.
  intros H. rewrite lookup_insert_is_Some.
  destruct (decide (k = j)); [by left | by right].
Qed.

Lemma wf_empty : wf empty_db.
Proof. constructor; intros ? ? H; simpl in H; by rewrite lookup_empty in H. Qed.

Lemma sign_up_wf now new d : wf d → wf (sign_up now new d).2.
Proof.
  intros Hwf. unfold sign_up. branches.
  destruct Hwf. constructor; simpl; try done.
  - intros k u [[<- <-]|[? Hl]]%lookup_insert_Some; eauto.
  - intros k q [[<- <-]|[? Hl]]%lookup_insert_Some; eauto.
  - intros k q [[Hk <-]|[? Hl]]%lookup_insert_Some.
    + subst k. unfold handle_new_user in *. case_match; simplify_eq. simpl.
      by rewrite lookup_insert_eq.
    + apply is_Some_insert_mono. eauto.
  - intros k t Hl. apply is_Some_insert_mono. eauto.
  - intros k b Hl. apply is_Some_insert_mono. eauto.
  - intros k q [[<- <-]|[? Hl]]%lookup_insert_Some; eauto.
Qed.

Lemma promote_to_admin_wf now e d : wf d → wf (promote_to_admin now e d).2.
Proof.
  intros Hwf. unfold promote_to_admin. simpl. destruct Hwf.
  constructor; simpl; try done.
  - intros k p (q & <- & Hl)%lookup_fmap_Some. case_match; simpl; eauto.
  - intros k p (q & <- & Hl)%lookup_fmap_Some. eauto.
  - intros k t Hl. rewrite lookup_fmap, fmap_is_Some. eauto.
  - intros k b Hl. rewrite lookup_fmap, fmap_is_Some. eauto.
  - intros k p (q & <- & Hl)%lookup_fmap_Some. case_match; simpl; eauto.
Qed.

Lemma insert_profiles_wf u now i d : wf d → wf (insert_profiles u now i d).2.
Proof.
  intros Hwf. unfold insert_profiles. branches.
  destruct Hwf. constructor; simpl; try done.
  - intros k q [[<- <-]|[? Hl]]%lookup_insert_Some; eauto.
  - intros k q [[<- <-]|[? Hl]]%lookup_insert_Some; eauto.
  - intros k t Hl. apply is_Some_insert_mono. eauto.
  - intros k b Hl. apply is_Some_insert_mono. eauto.
  - intros k q [[<- <-]|[? Hl]]%lookup_insert_Some; eauto.
Qed.

Lemma insert_Therapists_wf u now i d : wf d → wf (insert_Therapists u now i d).2.
Proof.
  intros Hwf. unfold insert_Therapists. branches.
  destruct Hwf. constructor; simpl; try done.
  - intros k q [[<- <-]|[? Hl]]%lookup_insert_Some; eauto.
  - intros k q [[<- <-]|[? Hl]]%lookup_insert_Some; eauto.
  - intros k b Hl. apply is_Some_insert_mono. eauto.
  - intros k q [[<- <-]|[? Hl]]%lookup_insert_Some; eauto.
Qed.

Lemma insert_Bookings_wf u now rnd i d : wf d → wf (insert_Bookings u now rnd i d).2.
Proof.
  intros Hwf. unfold insert_Bookings. branches.
  destruct Hwf. constructor; simpl; try done;
    intros k b [[<- <-]|[? Hl]]%lookup_insert_Some; eauto.
Qed.

Lemma lookup_moved {A} (m : gmap uuid A) (k k' j : uuid) (x y : A) :
  <[k' := x]> (delete k m) !! j = Some y →
  (j = k' ∧ y = x) ∨ (j ≠ k' ∧ j ≠ k ∧ m !! j = Some y).
Proof.
  intros [[<- <-]|[? [? ?]%lookup_delete_Some]]%lookup_insert_Some; eauto.
Qed.

Lemma is_Some_moved {A} (m : gmap uuid A) (k k' j : uuid) (x : A) :
  is_Some (m !! j) → j ≠ k ∨ k' = k → is_Some (<[k' := x]> (delete k m) !! j).
Proof.
  intros Hj Hk. rewrite lookup_insert_is_Some.
  destruct (decide (k' = j)) as [|Hne]; [by left|]. right. split; [done|].
  rewrite lookup_delete_ne; [done|]. intros ->. naive_solver.
Qed.

Lemma not_map_Exists {A} (P : uuid → A → Prop) (m : gmap uuid A) k x :
  ¬ map_Exists P m → m !! k = Some x → ¬ P k x.
Proof. intros Hn Hl HP. apply Hn. by exists k, x. Qed.

Lemma key_kept_or (x k : uuid) (b : bool) :
  bool_decide (x ≠ k) && b = false → x = k ∨ b = false.
Proof.
  destruct (decide (x = k)) as [|Hne]; [by left|].
  rewrite bool_decide_true by done. by right.
Qed.

Lemma update_profiles_wf u now k set d : wf d → wf (update_profiles u now k set d).2.
Proof.
  intros Hwf. unfold update_profiles. branches.
  match goal with H : _ && profile_is_referenced d k = false |- _ =>
    apply key_kept_or in H as Href end.
  destruct Hwf. constructor; simpl; try done.
  - intros j q [[-> ->]|(? & ? & Hl)]%lookup_moved; eauto.
  - intros j q [[-> ->]|(? & ? & Hl)]%lookup_moved; eauto.
  - intros j t Hl. apply is_Some_moved; [eauto|].
    destruct Href as [|Href]; [by right|left]. intros Heq.
    unfold profile_is_referenced in Href. passed.
    by eapply (not_map_Exists _ _ j t).
  - intros j b Hl. apply is_Some_moved; [eauto|].
    destruct Href as [|Href]; [by right|left]. intros Heq.
    unfold profile_is_referenced in Href. passed.
    by eapply (not_map_Exists _ _ j b).
  - intros j q [[-> ->]|(? & ? & Hl)]%lookup_moved; eauto.
Qed.

Lemma update_Therapists_wf u k set d : wf d → wf (update_Therapists u k set d).2.
Proof.
  intros Hwf. unfold update_Therapists. branches.
  match goal with H : _ && therapist_is_referenced d k = false |- _ =>
    apply key_kept_or in H as Href end.
  destruct Hwf. constructor; simpl; try done.
  - intros j q [[-> ->]|(? & ? & Hl)]%lookup_moved; eauto.
  - intros j q [[-> ->]|(? & ? & Hl)]%lookup_moved; eauto.
  - intros j b Hl. apply is_Some_moved; [eauto|].
    destruct Href as [|Href]; [by right|left]. intros Heq.
    unfold therapist_is_referenced in Href. passed.
    by eapply (not_map_Exists _ _ j b).
  - intros j q [[-> ->]|(? & ? & Hl)]%lookup_moved; eauto.
Qed.

Lemma update_Bookings_wf u now k set d : wf d → wf (update_Bookings u now k set d).2.
Proof.
  intros Hwf. unfold update_Bookings. branches.
  destruct Hwf. constructor; simpl; try done;
    intros j q [[-> ->]|(? & ? & Hl)]%lookup_moved; eauto.
Qed.

Lemma delete_Bookings_wf u k d : wf d → wf (delete_Bookings u k d).2.
Proof.
  intros Hwf. unfold delete_Bookings. branches.
  destruct Hwf. constructor; simpl; try done;
    intros j q [? Hl]%lookup_delete_Some; eauto.
Qed.

Lemma run_wf s d : wf d → wf (run s d).2.
Proof.
  intros Hwf.
  destruct s;
    [ by apply sign_up_wf | by apply promote_to_admin_wf
    | by apply insert_profiles_wf | by apply insert_Therapists_wf
    | by apply insert_Bookings_wf | by apply update_profiles_wf
    | by apply update_Therapists_wf | by apply update_Bookings_wf
    | by apply delete_Bookings_wf ].
Qed.

Theorem reachable_wf d : reachable d → wf d.
Proof. induction 1; eauto using wf_empty, run_wf. Qed.

(** ** UPDATE on a booking, in closed form *)

Lemma Bookings_select_parties d auth_uid b b' :
  Booking.user_id b' = Booking.user_id b →
  Booking.therapist_id b' = Booking.therapist_id b →
  Bookings_select d auth_uid b' = Bookings_select d auth_uid b.
Proof.
  intros Hu Ht.
  unfold Bookings_select, Users_can_view_own_bookings,
    Therapist_can_view_assigned_bookings.
  by rewrite Hu, Ht.
Qed.

(** A SET list that leaves the key and the two references alone: the
    statement is decided by the caller's access to the row and by the CHECK
    constraints on the new values, and by nothing else. *)
Lemma update_Bookings_closed_form d auth_uid now k set old :
  wf d →
  Bookings d !! k = Some old →
  Booking.id (set old) = Booking.id old →
  Booking.user_id (set old) = Booking.user_id old →
  Booking.therapist_id (set old) = Booking.therapist_id old →
  update_Bookings auth_uid now k set d
  = if Bookings_select d auth_uid old
    then if Booking.checks (set old)
         then (Done 1,
               with_Bookings
                 (<[k := update_bookings_updated_at now (set old)]> (Bookings d)) d)
         else (Failed check_violation, d)
    else (Done 0, d).
Proof.
  intros Hwf Hold Hid Hu Ht. unfold update_Bookings. rewrite Hold.
  change (Bookings_update d auth_uid old) with (Bookings_select d auth_uid old).
  rewrite andb_diag.
  destruct (Bookings_select d auth_uid old) eqn:Hsel; simpl; [|done].
  change (Bookings_update d auth_uid ?b) with (Bookings_select d auth_uid b).
  rewrite andb_diag.
  rewrite (Bookings_select_parties d auth_uid old) by done. rewrite Hsel. simpl.
  change (Booking.checks (update_bookings_updated_at now (set old)))
    with (Booking.checks (set old)).
  destruct (Booking.checks (set old)); simpl; [|done].
  rewrite Hid, (wf_Bookings_key d Hwf k old Hold).
  rewrite bool_decide_false by naive_solver. simpl.
  rewrite Hu, Ht.
  destruct (wf_Bookings_fk_user d Hwf k old Hold) as [p Hp].
  destruct (wf_Bookings_fk_therapist d Hwf k old Hold) as [t Htt].
  unfold has_key. rewrite Hp, Htt.
  rewrite !bool_decide_true by eauto. simpl.
  by rewrite insert_delete_eq.
Qed.

(** ** Histories *)

Lemma reachable_run_all ss d : reachable d → reachable (run_all ss d).
Proof.
  revert d. induction ss as [|s ss IH]; intros d Hd; [done|].
  apply IH. by constructor.
Qed.

Lemma reachable_history ss : reachable (run_all ss empty_db).
Proof. apply reachable_run_all. constructor. Qed.

Lemma non_admin_false d auth_uid :
  caller_is_admin d auth_uid = Some false → non_admin d auth_uid.
Proof.
  intros H Hadm. apply caller_is_admin_true in Hadm. by rewrite H in Hadm.
Qed.

Lemma Bookings_select_non_admin d auth_uid b :
  non_admin d auth_uid →
  Bookings_select d auth_uid b = true
  ↔ auth_uid = Some (Booking.user_id b) ∨ auth_uid = Some (Booking.therapist_id b).
Proof.
  intros Hna. rewrite Bookings_select_true.
  unfold Spec.canRead, Spec.isSelf, Spec.isAssignedTherapist. split.
  - intros (u & -> & [->| [->|Hadm]]); [by left | by right |].
    destruct Hna. by exists u.
  - intros [->| ->]; eexists; (split; [done|]); [by left | right; by left].
Qed.

Lemma check_status_allowed v b :
  Booking.check_status (Booking.set_status v b) = true ↔ allowed_status v.
Proof.
  unfold Booking.check_status, allowed_status. simpl. destruct v as [s|]; simpl.
  - case_bool_decide; split; try done.
    + intros _. right. by exists s.
    + intros [|(s' & [= <-] & ?)]; done.
  - split; [by left | done].
Qed.

Lemma checks_set_status d k old v :
  wf d → Bookings d !! k = Some old →
  Booking.checks (Booking.set_status v old)
  = Booking.check_status (Booking.set_status v old).
Proof.
  intros Hwf Hold. pose proof (wf_Bookings_check d Hwf k old Hold) as Hc.
  unfold Booking.checks in *. apply andb_true_iff in Hc as [Ha _].
  change (Booking.check_amount (Booking.set_status v old))
    with (Booking.check_amount old).
  by rewrite Ha.
Qed.

(** What the store does with a request to set a booking's status, for a
    caller who is not an admin: it is decided by who asks and by the value
    asked for, and the status the booking has plays no part. *)
Lemma update_status_non_admin d auth_uid now k old v :
  reachable d →
  Bookings d !! k = Some old →
  non_admin d auth_uid →
  update_Bookings auth_uid now k (Booking.set_status v) d
  = if bool_decide (auth_uid = Some (Booking.user_id old)
                    ∨ auth_uid = Some (Booking.therapist_id old))
    then if Booking.check_status (Booking.set_status v old)
         then (Done 1,
               with_Bookings
                 (<[k := Booking.set_updated_at (Some now) (Booking.set_status v old)]>
                    (Bookings d)) d)
         else (Failed check_violation, d)
    else (Done 0, d).
Proof.
  intros Hreach Hold Hna. pose proof (reachable_wf d Hreach) as Hwf.
  rewrite (update_Bookings_closed_form d auth_uid now k _ old) by done.
  rewrite (checks_set_status d k old v) by done.
  pose proof (Bookings_select_non_admin d auth_uid old Hna) as Hsel.
  destruct (Bookings_select d auth_uid old).
  - rewrite bool_decide_true; [done|]. by apply Hsel.
  - rewrite bool_decide_false; [done|]. intros Hp. by apply Hsel in Hp.
Qed.




(** ** Who decides on a pending booking *)

Lemma update_status_by_reader d auth_uid now k old v :
  wf d →
  Bookings d !! k = Some old →
  allowed_status v →
  update_Bookings auth_uid now k (Booking.set_status v) d
  = if Bookings_select d auth_uid old
    then (Done 1,
          with_Bookings
            (<[k := Booking.set_updated_at (Some now) (Booking.set_status v old)]>
               (Bookings d)) d)
    else (Done 0, d).
Proof.
  intros Hwf Hold Hv.
  rewrite (update_Bookings_closed_form d auth_uid now k _ old) by done.
  rewrite (checks_set_status d k old v) by done.
  apply check_status_allowed with (b := old) in Hv. by rewrite Hv.
Qed.




(** ** The two reschedule flags *)




(** ** Timestamps *)




(** ** Roles *)

Lemma profiles_select_true d auth_uid p :
  profiles_select d auth_uid p = true
  ↔ auth_uid = Some (Profile.user_id p) ∨ ∃ u, auth_uid = Some u ∧ Spec.isAdmin d u.
Proof.
  unfold profiles_select, Users_can_view_own_profile, Admin_can_view_all_profiles.
  by rewrite qualifies_sql_or, orb_true_iff, qualifies_auth_uid, caller_is_admin_true.
Qed.

Lemma check_role_set_role r p :
  Profile.check_role (Profile.set_role r p) = true
  ↔ r ∈ ["user"; "therapist"; "admin"].
Proof.
  unfold Profile.check_role. simpl. case_bool_decide; split; done.
Qed.

(** UPDATE of a profile's role, in closed form. *)
Lemma update_role_closed_form d auth_uid now k p r :
  wf d →
  profiles d !! k = Some p →
  update_profiles auth_uid now k (Profile.set_role r) d
  = if profiles_select d auth_uid p
    then if Profile.check_role (Profile.set_role r p)
         then (Done 1,
               with_profiles
                 (<[k := Profile.set_updated_at (Some now) (Profile.set_role r p)]>
                    (profiles d)) d)
         else (Failed check_violation, d)
    else (Done 0, d).
Proof.
  intros Hwf Hp. unfold update_profiles. rewrite Hp.
  change (profiles_update d auth_uid ?q) with (profiles_select d auth_uid q).
  change (profiles_select d auth_uid
            (update_profiles_updated_at now (Profile.set_role r p)))
    with (profiles_select d auth_uid p).
  rewrite !andb_diag.
  destruct (profiles_select d auth_uid p); simpl; [|done].
  change (Profile.check_role (update_profiles_updated_at now (Profile.set_role r p)))
    with (Profile.check_role (Profile.set_role r p)).
  destruct (Profile.check_role (Profile.set_role r p)); simpl; [|done].
  rewrite (wf_profiles_key d Hwf k p Hp).
  rewrite bool_decide_false by naive_solver. simpl.
  unfold has_key. rewrite bool_decide_true by (by eapply wf_profiles_fk).
  simpl. by rewrite insert_delete_eq.
Qed.




(** ** The dashboard guard *)

Lemma getCurrentUser_signed_in P user w :
  App.auth_getUser P = Js.Normal {| App.data := Some user; App.error := None |} →
  App.getCurrentUser P w = (Js.Normal (Some user), w).
Proof. intros H. unfold App.getCurrentUser, Js.try_catch, mbind, prog_bind, Js.bind, Js.await. by rewrite H. Qed.

Lemma getUserProfile_found P userId profile w :
  App.profiles_single P userId
  = Js.Normal {| App.data := Some profile; App.error := None |} →
  App.getUserProfile P userId w = (Js.Normal (Some profile), w).
Proof. intros H. unfold App.getUserProfile, Js.try_catch, mbind, prog_bind, Js.bind, Js.await. by rewrite H. Qed.

(** C10.  For every signed-in user whose profile has the role 'therapist',
    [guardDashboard('therapist')] returns the user and the profile whatever
    the query for the therapist's approval status answers: approved,
    pending, rejected, NULL, or no row at all.  It sends the browser
    nowhere and does not sign the session out; an unapproved status only
    adds a line to the console. *)
Theorem guardDashboard_admits_any_approval_status (P : App.platform)
    (user : App.User) (profile : Profile.row)
    (answer : App.response (option string)) (w : Js.world) :
  App.auth_getUser P = Js.Normal {| App.data := Some user; App.error := None |} →
  App.profiles_single P (App.id user)
  = Js.Normal {| App.data := Some profile; App.error := None |} →
  Profile.role profile = "therapist" →
  App.Therapists_approval_status_single P (App.id user) = Js.Normal answer →
  ∃ w',
    App.guardDashboard P "therapist" w = (Js.Normal (Some (user, profile)), w')
    ∧ Js.location_href w' = Js.location_href w
    ∧ Js.signed_out w' = Js.signed_out w.
Proof.
  intros Huser Hprofile Hrole Hanswer.
  unfold App.guardDashboard, Js.try_catch, mbind, prog_bind, Js.bind.
  rewrite (getCurrentUser_signed_in P user w Huser).
  rewrite (getUserProfile_found P (App.id user) profile w Hprofile).
  rewrite Hrole. simpl. unfold Js.await. rewrite Hanswer.
  destruct (App.data answer) as [approval_status|]; [|by eexists].
  case_bool_decide; by eexists.
Qed.

(** The therapist of [Scenario], registered and not yet approved, opens
    the therapist dashboard. *)
Lemma guardDashboard_admits_any_approval_status_witness :
  ∃ w',
    App.guardDashboard Scenario.pending_therapist "therapist" Js.initial
    = (Js.Normal
         (Some
            ({| App.id := Scenario.therapist |},
             Profile.with_defaults 101
               {| Profile.i_user_id := Scenario.therapist;
                  Profile.i_email := "t@example.com";
                  Profile.i_role := "therapist";
                  Profile.i_full_name := Some "t";
                  Profile.i_phone := None;
                  Profile.i_date_of_birth := None;
                  Profile.i_gender := None;
                  Profile.i_city := None;
                  Profile.i_address := None;
                  Profile.i_emergency_contact_name := None;
                  Profile.i_emergency_contact_phone := None;
                  Profile.i_profile_picture_url := None;
                  Profile.i_status := None;
                  Profile.i_approved := None;
                  Profile.i_created_at := DEFAULT;
                  Profile.i_updated_at := DEFAULT |})), w')
    ∧ Js.location_href w' = Js.location_href Js.initial
    ∧ Js.signed_out w' = Js.signed_out Js.initial.
Proof.
  apply
    (guardDashboard_admits_any_approval_status Scenario.pending_therapist
       {| App.id := Scenario.therapist |} _
       {| App.data := Some (Some "pending"); App.error := None |} Js.initial).
  - done.
  - by vm_compute.
  - done.
  - by vm_compute.
Defined.

(** ** The meeting-link validator *)

(** C5.  Whatever URL constructor the platform has, provided it refuses the
    empty string as the standard's does, [isValidHttpsUrl] answers true for
    a string exactly when the constructor parses it and the protocol of the
    result is "https:".  Run on the model of the standard's parser, it
    answers false for "http://example.com" and true for
    "https://example.com/room/abc". *)
Theorem isValidHttpsUrl_iff_https :
  (∀ new_URL : string → option Url.URL,
     new_URL "" = None →
     ∀ url,
       isValidHttpsUrl new_URL url = true
       ↔ ∃ parsed, new_URL url = Some parsed ∧ Url.protocol parsed = "https:")
  ∧ Url.parse "" = None
  ∧ isValidHttpsUrl Url.parse "http://example.com" = false
  ∧ isValidHttpsUrl Url.parse "https://example.com/room/abc" = true.
Proof.
  split_and!; [|done|done|done].
  intros new_URL Hempty url. unfold isValidHttpsUrl.
  destruct (String.eqb_spec url "") as [->|Hne].
  - rewrite Hempty. split; [done|]. by intros (? & ? & _).
  - destruct (new_URL url) as [parsed|].
    + rewrite String.eqb_eq. split.
      * intros H. by exists parsed.
      * by intros (? & [= <-] & ?).
    + split; [done|]. by intros (? & ? & _).
Qed.

Example isValidHttpsUrl_on_model :
  isValidHttpsUrl Url.parse "HTTPS://Example.COM:8443/x?y#z" = true
  ∧ isValidHttpsUrl Url.parse "  https:example.com " = true
  ∧ isValidHttpsUrl Url.parse "https://" = false
  ∧ isValidHttpsUrl Url.parse "https://exa mple.com" = false
  ∧ isValidHttpsUrl Url.parse "https://example.com:99999" = false
  ∧ isValidHttpsUrl Url.parse "example.com" = false
  ∧ isValidHttpsUrl Url.parse "//example.com" = false
  ∧ isValidHttpsUrl Url.parse "ws://example.com" = false
  ∧ isValidHttpsUrl Url.parse "" = false.
Proof. by vm_compute. Qed.

(** The equivalence at the specification's second example, on the model of
    the parser. *)
Lemma isValidHttpsUrl_iff_https_witness :
  isValidHttpsUrl Url.parse "https://example.com/room/abc" = true
  ↔ ∃ parsed,
      Url.parse "https://example.com/room/abc" = Some parsed
      ∧ Url.protocol parsed = "https:".
Proof.
  destruct isValidHttpsUrl_iff_https as [H _]. by apply H.
Defined.

(** ** The date validator *)

Lemma parse_midnight s t :
  JsDate.parse s = Some t → ∃ day, t = (day * JsDate.msPerDay)%Z.
Proof.
  unfold JsDate.parse. destruct (JsDate.parse_fields s) as [[[y m] d]|]; [|done].
  case_match; [|done]. intros [= <-]. by eexists.
Qed.

Lemma parse_empty : JsDate.parse "" = None.
Proof. done. Qed.

Lemma Day_midnight day : JsDate.Day (day * JsDate.msPerDay) = day.
Proof. unfold JsDate.Day, JsDate.msPerDay. by rewrite Z.div_mul. Qed.

(** [isFutureDate] compares UTC midnight of the day it is given with local
    midnight of the current day. *)
Lemma isFutureDate_midnights e s day :
  JsDate.parse s = Some (day * JsDate.msPerDay)%Z →
  isFutureDate e s
  = bool_decide
      (JsDate.current_date e * JsDate.msPerDay - JsDate.LocalTZA e
       ≤ day * JsDate.msPerDay)%Z.
Proof.
  intros Hparse. unfold isFutureDate.
  destruct (String.eqb_spec s "") as [->|_]; [by rewrite parse_empty in Hparse|].
  by rewrite Hparse.
Qed.

(** What [isFutureDate] answers, by the day it is given: false for a day
    before the current one, true for a day after it, and for the current
    day true exactly when local time is not behind UTC. *)
Theorem isFutureDate_by_day (e : JsDate.env) (s : string) (day : Z) :
  JsDate.parse s = Some (day * JsDate.msPerDay)%Z →
  (- JsDate.msPerDay < JsDate.LocalTZA e < JsDate.msPerDay)%Z →
  ((day < JsDate.current_date e)%Z → isFutureDate e s = false)
  ∧ ((JsDate.current_date e < day)%Z → isFutureDate e s = true)
  ∧ (day = JsDate.current_date e →
     isFutureDate e s = bool_decide (0 ≤ JsDate.LocalTZA e)%Z).
Proof.
  intros Hparse Htz. rewrite (isFutureDate_midnights e s day Hparse).
  unfold JsDate.msPerDay in *. split_and!.
  - intros Hlt. apply bool_decide_eq_false. lia.
  - intros Hgt. apply bool_decide_eq_true. lia.
  - intros ->. apply bool_decide_ext. lia.
Qed.

(** New York, 15 January 2024, asked about that same day. *)
Lemma isFutureDate_by_day_witness :
  ((19737 < JsDate.current_date Scenario.new_york)%Z →
   isFutureDate Scenario.new_york "2024-01-15" = false)
  ∧ ((JsDate.current_date Scenario.new_york < 19737)%Z →
     isFutureDate Scenario.new_york "2024-01-15" = true)
  ∧ (19737%Z = JsDate.current_date Scenario.new_york →
     isFutureDate Scenario.new_york "2024-01-15"
     = bool_decide (0 ≤ JsDate.LocalTZA Scenario.new_york)%Z).
Proof.
  apply (isFutureDate_by_day Scenario.new_york "2024-01-15" 19737).
  - by vm_compute.
  - by vm_compute.
Defined.

(** ** Booking creation *)

Lemma Therapists_select_public_record d auth_uid t :
  Spec.canViewTherapistPublicly t = true → Therapists_select d auth_uid t = true.
Proof.
  intros H. unfold Therapists_select. rewrite qualifies_sql_or, orb_true_iff. left.
  unfold Public_can_view_approved_active_therapists.
  unfold Spec.canViewTherapistPublicly in H. apply andb_true_iff in H as [H1 H2].
  apply bool_decide_eq_true in H1, H2. by rewrite H1, H2.
Qed.

(** The directory lookup of [createBooking] finds the therapist's record
    and no other. *)
Lemma lookup_public_therapist d auth_uid ref t :
  wf d →
  Therapists d !! ref = Some t →
  Spec.canViewTherapistPublicly t = true →
  ∃ others,
    select_Therapists auth_uid
      (λ t, bool_decide (Therapist.id t = ref) && Spec.canViewTherapistPublicly t) d
    = t :: others.
Proof.
  intros Hwf Ht Hpub.
  set (l := select_Therapists auth_uid _ d).
  assert (t ∈ l) as Hin.
  { apply elem_of_List_filter. split; [apply elem_of_rows; by exists ref|].
    rewrite (Therapists_select_public_record d auth_uid t Hpub), Hpub.
    rewrite bool_decide_true; [done|]. by eapply wf_Therapists_key. }
  destruct l as [|t' others] eqn:Hl; [by apply elem_of_nil in Hin|].
  assert (t' ∈ l) as Hin' by (rewrite Hl; left).
  apply elem_of_List_filter in Hin' as [[k Hk]%elem_of_rows Hf].
  apply andb_true_iff in Hf as [_ [Hid _]%andb_true_iff].
  apply bool_decide_eq_true in Hid.
  rewrite (wf_Therapists_key d Hwf k t' Hk) in Hid. subst k.
  rewrite Ht in Hk. injection Hk as <-. by exists others.
Qed.

(** What [createBooking] answers for a signed-in patient and a therapist
    whom the directory shows: a validation error for a day before the
    current one; a new booking, pending and priced at the therapist's fee,
    for a day after it; and for the current day the one or the other as the
    browser's clock is ahead of UTC or behind it. *)
Theorem createBooking_by_day (e : JsDate.env) (patient : uuid)
    (now : timestamptz) (random_uuid : uuid) (r : Lifecycle.request) (d : db)
    (day : Z) (t : Therapist.row) :
  reachable d →
  is_Some (profiles d !! patient) →
  Therapists d !! Lifecycle.therapistRef r = Some t →
  Spec.canViewTherapistPublicly t = true →
  Bookings d !! random_uuid = None →
  JsDate.parse (Lifecycle.sessionDate r) = Some (day * JsDate.msPerDay)%Z →
  (- JsDate.msPerDay < JsDate.LocalTZA e < JsDate.msPerDay)%Z →
  let result := Lifecycle.createBooking e (Some patient) now random_uuid r d in
  let row :=
    Booking.with_defaults now random_uuid
      (Lifecycle.booking_row patient day (Therapist.fee t) r) in
  ((day < JsDate.current_date e)%Z
   ∨ (day = JsDate.current_date e ∧ JsDate.LocalTZA e < 0)%Z →
   result = (inl Spec.ValidationError, d))
  ∧ ((JsDate.current_date e < day)%Z
     ∨ (day = JsDate.current_date e ∧ 0 ≤ JsDate.LocalTZA e)%Z →
     result = (inr row, with_Bookings (<[random_uuid := row]> (Bookings d)) d)
     ∧ Booking.status row = Some "pending"
     ∧ Booking.amount row = Therapist.fee t
     ∧ Booking.user_id row = patient
     ∧ Booking.therapist_id row = Lifecycle.therapistRef r).
Proof.
  intros Hreach Hpatient Ht Hpub Hfresh Hparse Htz result row.
  pose proof (reachable_wf d Hreach) as Hwf.
  destruct (isFutureDate_by_day e _ day Hparse Htz) as (Hpast & Hfuture & Htoday).
  unfold result, Lifecycle.createBooking. split.
  - intros [Hlt|[-> Hneg]].
    + by rewrite (Hpast Hlt).
    + rewrite (Htoday eq_refl), bool_decide_false by lia. done.
  - intros Hday.
    assert (isFutureDate e (Lifecycle.sessionDate r) = true) as ->.
    { destruct Hday as [Hgt|[-> Hpos]]; [by apply Hfuture|].
      rewrite (Htoday eq_refl). by apply bool_decide_eq_true. }
    simpl.
    destruct (lookup_public_therapist d (Some patient) _ t Hwf Ht Hpub)
      as [others ->].
    rewrite Hparse. simpl. rewrite Day_midnight. fold row.
    unfold insert_Bookings. fold row.
    assert (Bookings_insert (Some patient) row = true) as ->.
    { unfold Bookings_insert, Users_can_insert_own_bookings. simpl.
      by rewrite bool_decide_true. }
    assert (Booking.checks row = true) as ->.
    { pose proof (wf_Therapists_check d Hwf _ t Ht) as Hc.
      unfold Therapist.checks in Hc.
      apply andb_true_iff in Hc as [[Hfee _]%andb_true_iff _].
      unfold Booking.checks. apply andb_true_iff. split; [exact Hfee|done]. }
    simpl. unfold has_key.
    rewrite bool_decide_false by (rewrite Hfresh; by intros [? ?]).
    rewrite Ht, !bool_decide_true by eauto. done.
Qed.

(** New York, 15 January 2024: the patient of [Scenario] books the next
    day. *)
Lemma createBooking_by_day_witness :
  ((19738 < JsDate.current_date Scenario.new_york)%Z
   ∨ (19738%Z = JsDate.current_date Scenario.new_york
      ∧ JsDate.LocalTZA Scenario.new_york < 0)%Z →
   Lifecycle.createBooking Scenario.new_york (Some Scenario.patient) 106
     Scenario.booking (Scenario.request_for "2024-01-16") Scenario.directory_db
   = (inl Spec.ValidationError, Scenario.directory_db))
  ∧ ((JsDate.current_date Scenario.new_york < 19738)%Z
     ∨ (19738%Z = JsDate.current_date Scenario.new_york
        ∧ 0 ≤ JsDate.LocalTZA Scenario.new_york)%Z →
     Lifecycle.createBooking Scenario.new_york (Some Scenario.patient) 106
       Scenario.booking (Scenario.request_for "2024-01-16") Scenario.directory_db
     = (inr
          (Booking.with_defaults 106 Scenario.booking
             (Lifecycle.booking_row Scenario.patient 19738 100
                (Scenario.request_for "2024-01-16"))),
        with_Bookings
          (<[Scenario.booking :=
               Booking.with_defaults 106 Scenario.booking
                 (Lifecycle.booking_row Scenario.patient 19738 100
                    (Scenario.request_for "2024-01-16"))]>
             (Bookings Scenario.directory_db)) Scenario.directory_db)
     ∧ Some "pending" = Some "pending"
     ∧ 100%Z = 100%Z
     ∧ Scenario.patient = Scenario.patient
     ∧ Scenario.therapist = Scenario.therapist).
Proof.
  apply
    (createBooking_by_day Scenario.new_york Scenario.patient 106 Scenario.booking
       (Scenario.request_for "2024-01-16") Scenario.directory_db 19738
       (Therapist.set_approval_status (Some "approved")
          (Therapist.with_defaults 105 Scenario.therapist_signup))).
  - apply reachable_history.
  - eexists. by vm_compute.
  - by vm_compute.
  - by vm_compute.
  - by vm_compute.
  - by vm_compute.
  - by vm_compute.
Defined.

(** C4, where the code falls short of it.  A browser in New York, at ten in
    the morning of 15 January 2024; the patient of [Scenario] asks for a
    session on that same day with the therapist, who is approved and
    active.  [isFutureDate] answers false: "2024-01-15" is read as midnight
    UTC, which is five hours before local midnight.  So the booking is
    refused as a validation error and nothing is stored.  The same request
    at the same instant from a browser in Delhi is carried out. *)
Lemma booking_for_today_refused_in_new_york :
  JsDate.parse "2024-01-15"
  = Some (JsDate.current_date Scenario.new_york * JsDate.msPerDay)%Z
  ∧ isFutureDate Scenario.new_york "2024-01-15" = false
  ∧ Spec.canViewTherapistPublicly
      <$> Therapists Scenario.directory_db !! Scenario.therapist
    = Some true
  ∧ Lifecycle.createBooking Scenario.new_york (Some Scenario.patient) 106
      Scenario.booking (Scenario.request_for "2024-01-15") Scenario.directory_db
    = (inl Spec.ValidationError, Scenario.directory_db)
  ∧ JsDate.current_date Scenario.delhi = JsDate.current_date Scenario.new_york
  ∧ (Lifecycle.createBooking Scenario.delhi (Some Scenario.patient) 106
       Scenario.booking (Scenario.request_for "2024-01-15") Scenario.directory_db).1
    = inr
        (Booking.with_defaults 106 Scenario.booking
           (Lifecycle.booking_row Scenario.patient 19737 100
              (Scenario.request_for "2024-01-15"))).
Proof.
  split_and!; [by vm_compute|by vm_compute|by vm_compute| |by vm_compute|by vm_compute].
  unfold Lifecycle.createBooking.
  assert (isFutureDate Scenario.new_york
            (Lifecycle.sessionDate (Scenario.request_for "2024-01-15")) = false)
    as -> by (by vm_compute).
  done.
Qed.

(** * More of the schema *)

(** ** What the constraints mean *)

Lemma check_holds_Some b : check_holds (Some b) = b.
Proof. by destruct b. Qed.

Lemma check_holds_ge0 (x : option Z) :
  check_holds (ge0 x) = true ↔ ∀ v, x = Some v → (0 ≤ v)%Z.
Proof.
  destruct x as [v|]; unfold ge0; [|naive_solver].
  rewrite check_holds_Some, bool_decide_eq_true. naive_solver.
Qed.

Lemma check_holds_is_in (x : option string) (l : list string) :
  check_holds (is_in x l) = true ↔ x = None ∨ ∃ s, x = Some s ∧ s ∈ l.
Proof.
  destruct x as [s|]; unfold is_in; [|naive_solver].
  rewrite check_holds_Some, bool_decide_eq_true. naive_solver.
Qed.

Lemma check_role_true p :
  Profile.check_role p = true ↔ Profile.role p ∈ ["user"; "therapist"; "admin"].
Proof. unfold Profile.check_role. rewrite check_holds_is_in. naive_solver. Qed.

Lemma Booking_checks_true b :
  Booking.checks b = true
  ↔ (0 ≤ Booking.amount b)%Z ∧ allowed_status (Booking.status b).
Proof.
  unfold Booking.checks, Booking.check_amount, Booking.check_status, allowed_status.
  rewrite andb_true_iff, check_holds_ge0, check_holds_is_in. naive_solver.
Qed.

Lemma Therapist_checks_true t :
  Therapist.checks t = true
  ↔ (0 ≤ Therapist.fee t)%Z
    ∧ (∀ x, Therapist.experience t = Some x → (0 ≤ x)%Z)
    ∧ (Therapist.approval_status t = None
       ∨ ∃ s, Therapist.approval_status t = Some s
              ∧ s ∈ ["pending"; "approved"; "rejected"]).
Proof.
  unfold Therapist.checks, Therapist.check_fee, Therapist.check_experience,
    Therapist.check_approval_status.
  rewrite !andb_true_iff, !check_holds_ge0, check_holds_is_in. naive_solver.
Qed.

(** X1.  The keys and constraints of the three tables hold in every
    reachable database: a profile is stored under its [user_id], belongs
    to an auth user and has one of the three roles; a therapist record is
    stored under its [id], refers to a profile, and has a fee and an
    experience that are not negative and an approval status that is NULL
    or one of 'pending', 'approved', 'rejected'; a booking is stored under
    its [id], refers to a profile and to a therapist record, and has an
    amount that is not negative and a status that is NULL or one of the
    five. *)
Theorem reachable_database_integrity (d : db) :
  reachable d →
  (∀ k p, profiles d !! k = Some p →
     Profile.user_id p = k
     ∧ is_Some (auth_users d !! k)
     ∧ Profile.role p ∈ ["user"; "therapist"; "admin"])
  ∧ (∀ k t, Therapists d !! k = Some t →
     Therapist.id t = k
     ∧ is_Some (profiles d !! Therapist.user_id t)
     ∧ (0 ≤ Therapist.fee t)%Z
     ∧ (∀ x, Therapist.experience t = Some x → (0 ≤ x)%Z)
     ∧ (Therapist.approval_status t = None
        ∨ ∃ s, Therapist.approval_status t = Some s
               ∧ s ∈ ["pending"; "approved"; "rejected"]))
  ∧ (∀ k b, Bookings d !! k = Some b →
     Booking.id b = k
     ∧ is_Some (profiles d !! Booking.user_id b)
     ∧ is_Some (Therapists d !! Booking.therapist_id b)
     ∧ (0 ≤ Booking.amount b)%Z
     ∧ allowed_status (Booking.status b)).
Proof.
  intros Hwf%reachable_wf. destruct Hwf. split_and!.
  - intros k p Hp. rewrite <- check_role_true. split_and!; eauto.
  - intros k t Ht. rewrite <- Therapist_checks_true. split_and!; eauto.
  - intros k b Hb. rewrite <- Booking_checks_true. split_and!; eauto.
Qed.

(** The booking of [Scenario], after the session. *)
Lemma reachable_database_integrity_witness :
  ∃ b, Bookings Scenario.completed_db !! Scenario.booking = Some b
       ∧ Booking.id b = Scenario.booking
       ∧ is_Some (profiles Scenario.completed_db !! Booking.user_id b)
       ∧ is_Some (Therapists Scenario.completed_db !! Booking.therapist_id b)
       ∧ (0 ≤ Booking.amount b)%Z
       ∧ allowed_status (Booking.status b).
Proof.
  destruct (Bookings Scenario.completed_db !! Scenario.booking) as [b|] eqn:Hb;
    [|by vm_compute in Hb].
  exists b. split; [done|].
  exact (proj2 (proj2 (reachable_database_integrity Scenario.completed_db
                  (reachable_history Scenario.completed))) _ _ Hb).
Defined.

(** ** A caller who is not signed in *)


(** ** Who reads profiles and therapist records *)


Lemma Therapists_select_true d auth_uid t :
  Therapists_select d auth_uid t = true
  ↔ Spec.canViewTherapistPublicly t = true
    ∨ auth_uid = Some (Therapist.id t)
    ∨ auth_uid = Some (Therapist.user_id t)
    ∨ ∃ u, auth_uid = Some u ∧ Spec.isAdmin d u.
Proof.
  unfold Therapists_select, Therapist_can_view_own_therapist_record,
    Admin_can_view_all_therapists.
  rewrite !qualifies_sql_or, !orb_true_iff, !qualifies_auth_uid, caller_is_admin_true.
  rewrite <- (Therapists_select_public d t).
  unfold Therapists_select, Therapist_can_view_own_therapist_record,
    Admin_can_view_all_therapists.
  rewrite !qualifies_sql_or, caller_is_admin_not_signed_in. simpl.
  rewrite !orb_false_r. naive_solver.
Qed.

Lemma Therapists_update_true d auth_uid t :
  Therapists_update d auth_uid t = true
  ↔ auth_uid = Some (Therapist.id t)
    ∨ auth_uid = Some (Therapist.user_id t)
    ∨ ∃ u, auth_uid = Some u ∧ Spec.isAdmin d u.
Proof.
  unfold Therapists_update, Therapist_can_update_own_therapist_record,
    Admin_can_update_all_therapists.
  rewrite !qualifies_sql_or, !orb_true_iff, !qualifies_auth_uid, caller_is_admin_true.
  naive_solver.
Qed.


(** ** INSERT and DELETE on bookings *)

Lemma Bookings_delete_true d auth_uid b :
  Bookings_delete d auth_uid b = true ↔ ∃ u, auth_uid = Some u ∧ Spec.isAdmin d u.
Proof. unfold Bookings_delete, Admin_can_delete_bookings. apply caller_is_admin_true. Qed.


Lemma Bookings_insert_true auth_uid b :
  Bookings_insert auth_uid b = true ↔ auth_uid = Some (Booking.user_id b).
Proof. unfold Bookings_insert, Users_can_insert_own_bookings. apply qualifies_auth_uid. Qed.


(** ** UPDATE on a booking, whatever the SET list *)



(** ** The helper functions *)

(** X8.  In every reachable database the two helper functions agree:
    [is_admin(u)] is true exactly when [get_user_role(u)] is 'admin'. *)
Theorem is_admin_by_role (d : db) (user_uuid : uuid) :
  reachable d →
  is_admin d user_uuid = bool_decide (get_user_role d user_uuid = Some "admin").
Proof.
  intros Hwf%reachable_wf. apply eq_true_iff_eq.
  rewrite is_admin_true, bool_decide_eq_true. unfold Spec.isAdmin, get_user_role.
  split.
  - intros (k & p & Hp & Hu & Hr).
    rewrite (wf_profiles_key d Hwf k p Hp) in Hu. subst k. by rewrite Hp, <- Hr.
  - intros (p & Hr & Hp)%fmap_Some. exists user_uuid, p.
    split_and!; [done| |done]. by eapply wf_profiles_key.
Qed.

(** The admin and the patient of [Scenario]. *)
Lemma is_admin_by_role_witness :
  is_admin Scenario.directory_db Scenario.admin
  = bool_decide (get_user_role Scenario.directory_db Scenario.admin = Some "admin")
  ∧ is_admin Scenario.directory_db Scenario.admin = true
  ∧ is_admin Scenario.directory_db Scenario.patient = false.
Proof.
  split; [|by vm_compute].
  apply (is_admin_by_role Scenario.directory_db Scenario.admin).
  apply (reachable_history Scenario.people).
Defined.

(** ** Approval of a therapist *)

Lemma check_approval_status_set v t :
  Therapist.checks t = true →
  Therapist.checks (Therapist.set_approval_status v t) = true
  ↔ v = None ∨ ∃ s, v = Some s ∧ s ∈ ["pending"; "approved"; "rejected"].
Proof.
  rewrite !Therapist_checks_true. simpl. naive_solver.
Qed.



(** ** UPDATE on a profile, whatever the SET list *)



(** ** Sign-up *)

Lemma split_part_1_app (sep : ascii) (a b : string) :
  sep ∉ list_ascii_of_string a →
  split_part_1 sep (a ++ String sep b) = a.
Proof.
  induction a as [|c a IH]; simpl; intros Hn.
  - by rewrite Ascii.eqb_refl.
  - apply not_elem_of_cons in Hn as [Hc Ha].
    destruct (Ascii.eqb_spec c sep) as [->|_]; [done|]. by rewrite IH.
Qed.

(** X11.  A sign-up that is carried out, with the e-mail address
    name@domain, adds the auth user and one profile, both new, and nothing
    else: the profile has that address, the full name of the sign-up
    metadata or, when they name none, the part of the address before the
    '@', one of the three roles, and the time of the sign-up in
    [created_at] and [updated_at]. *)
Theorem sign_up_profile (now : timestamptz) (new : AuthUser.row) (d d' : db)
    (name domain : string) :
  sign_up now new d = (Done 1, d') →
  AuthUser.email new = Some (name ++ String "@" domain) →
  "@"%char ∉ list_ascii_of_string name →
  ∃ p,
    profiles d' !! AuthUser.id new = Some p
    ∧ auth_users d' !! AuthUser.id new = Some new
    ∧ profiles d !! AuthUser.id new = None
    ∧ auth_users d !! AuthUser.id new = None
    ∧ Profile.email p = name ++ String "@" domain
    ∧ Profile.full_name p
      = Some (default name (AuthUser.raw_user_meta_data new !! "full_name"))
    ∧ Profile.role p ∈ ["user"; "therapist"; "admin"]
    ∧ Profile.created_at p = Some now
    ∧ Profile.updated_at p = Some now
    ∧ (∀ j, j ≠ AuthUser.id new →
            profiles d' !! j = profiles d !! j
            ∧ auth_users d' !! j = auth_users d !! j)
    ∧ Therapists d' = Therapists d
    ∧ Bookings d' = Bookings d.
Proof.
  unfold sign_up, handle_new_user. intros Hrun He Hname. rewrite He in Hrun.
  destruct (has_key (auth_users d) _) eqn:Hu; [done|].
  destruct (Profile.check_role _) eqn:Hck; cbn [negb] in Hrun; [|done].
  destruct (has_key (profiles d) _) eqn:Hp; [done|].
  injection Hrun as <-. passed. apply check_role_true in Hck. simpl in *.
  eexists. rewrite !lookup_insert_eq. split_and!; try done.
  - by rewrite split_part_1_app.
  - intros j Hj. by rewrite !lookup_insert_ne.
Qed.

(** The first sign-up of [Scenario]: p@example.com, with no metadata. *)
Lemma sign_up_profile_witness :
  ∃ p,
    profiles Scenario.first_signup_db !! Scenario.patient = Some p
    ∧ Profile.full_name p = Some "p"
    ∧ Profile.role p = "user".
Proof.
  destruct (sign_up_profile 100
              (Scenario.new_user Scenario.patient "p@example.com" ∅)
              empty_db Scenario.first_signup_db "p" "example.com")
    as (p & Hp & _ & _ & _ & _ & Hn & _);
    [by vm_compute|done|simpl; set_solver|].
  exists p. split; [exact Hp|]. split; [exact Hn|].
  vm_compute in Hp. by injection Hp as <-.
Defined.

(** ** Every auth user has a profile *)

Lemma run_users_have_profiles s d :
  (∀ k, is_Some (auth_users d !! k) → is_Some (profiles d !! k)) →
  ∀ k, is_Some (auth_users (run s d).2 !! k) → is_Some (profiles (run s d).2 !! k).
Proof.
  intros Hinv. destruct s; simpl.
  - unfold sign_up, handle_new_user. branches; simplify_eq; simpl.
    intros k [<-|[_ Hk]]%lookup_insert_is_Some.
    + rewrite lookup_insert_eq. eauto.
    + apply is_Some_insert_mono. eauto.
  - intros k Hk. rewrite lookup_fmap, fmap_is_Some. eauto.
  - unfold insert_profiles. branches. intros k Hk.
    apply is_Some_insert_mono. eauto.
  - unfold insert_Therapists. branches.
  - unfold insert_Bookings. branches.
  - unfold update_profiles.
    destruct (profiles d !! k) as [old|] eqn:Hold; [|done].
    set (new := update_profiles_updated_at now (set old)).
    destruct (negb (profiles_select d auth_uid old && profiles_update d auth_uid old));
      [done|].
    destruct (negb (profiles_update d auth_uid new && profiles_select d auth_uid new));
      [done|].
    destruct (negb (Profile.check_role new)); [done|].
    destruct (bool_decide (Profile.user_id new ≠ k)
              && has_key (profiles d) (Profile.user_id new)) eqn:Hkey; [done|].
    destruct (negb (has_key (auth_users d) (Profile.user_id new))) eqn:Hfk; [done|].
    destruct (bool_decide (Profile.user_id new ≠ k) && profile_is_referenced d k);
      [done|].
    cbn [orb snd with_profiles profiles auth_users]. intros j Hj.
    apply key_kept_or in Hkey as [Hkey|Hfree].
    + apply is_Some_moved; eauto.
    + apply negb_false_iff, bool_decide_eq_true in Hfk.
      apply bool_decide_eq_false in Hfree. destruct Hfree. by apply Hinv.
  - unfold update_Therapists. branches.
  - unfold update_Bookings. branches.
  - unfold delete_Bookings. branches.
Qed.

Lemma reachable_users_have_profiles d :
  reachable d → ∀ k, is_Some (auth_users d !! k) → is_Some (profiles d !! k).
Proof.
  induction 1 as [|s d _ IH]; [|by apply run_users_have_profiles].
  intros k. simpl. rewrite lookup_empty. by intros [? ?].
Qed.

(** X12.  In every reachable database the auth users and the profiles
    are the same principals, as the sign-up trigger leaves them.  So an
    INSERT on [profiles] by a client always fails, whoever asks and
    whatever the row, and an UPDATE that is carried out never changes the
    [user_id] of a profile. *)
Theorem profile_per_user (d : db) :
  reachable d →
  (∀ k, is_Some (auth_users d !! k) ↔ is_Some (profiles d !! k))
  ∧ (∀ auth_uid now i, ∃ e, insert_profiles auth_uid now i d = (Failed e, d))
  ∧ (∀ auth_uid now k set d' old,
       profiles d !! k = Some old →
       update_profiles auth_uid now k set d = (Done 1, d') →
       Profile.user_id (set old) = Profile.user_id old).
Proof.
  intros Hd. pose proof (reachable_wf d Hd) as Hwf.
  pose proof (reachable_users_have_profiles d Hd) as Hinv.
  split_and!.
  - intros k. split; [apply Hinv|].
    intros [p Hp]. by eapply wf_profiles_fk.
  - intros auth_uid now i. unfold insert_profiles.
    repeat (case_match; try by eexists). passed.
    match goal with H : profiles d !! _ = None |- _ =>
      apply eq_None_not_Some in H; destruct H end.
    by apply Hinv.
  - intros auth_uid now k set d' old Hold. unfold update_profiles. rewrite Hold.
    change (Profile.user_id (update_profiles_updated_at now (set old)))
      with (Profile.user_id (set old)).
    destruct (negb (profiles_select d auth_uid old && profiles_update d auth_uid old));
      [done|].
    destruct (negb (profiles_update d auth_uid _ && profiles_select d auth_uid _));
      [done|].
    destruct (negb (Profile.check_role _)); [done|].
    destruct (bool_decide (Profile.user_id (set old) ≠ k)
              && has_key (profiles d) (Profile.user_id (set old))) eqn:Hkey; [done|].
    destruct (negb (has_key (auth_users d) (Profile.user_id (set old)))) eqn:Hfk;
      [done|].
    intros _. rewrite (wf_profiles_key d Hwf k old Hold).
    apply key_kept_or in Hkey as [Hkey|Hfree]; [done|].
    apply negb_false_iff, bool_decide_eq_true in Hfk.
    apply bool_decide_eq_false in Hfree. destruct Hfree. by apply Hinv.
Qed.

(** The patient of [Scenario]. *)
Lemma profile_per_user_witness :
  (is_Some (auth_users Scenario.directory_db !! Scenario.patient)
   ↔ is_Some (profiles Scenario.directory_db !! Scenario.patient))
  ∧ is_Some (profiles Scenario.directory_db !! Scenario.patient).
Proof.
  split; [|eexists; by vm_compute].
  apply (proj1 (profile_per_user Scenario.directory_db
                  (reachable_history Scenario.people)) Scenario.patient).
Defined.

(** X13.  What a sign-up fails on, leaving the database as it was: an id
    that is taken; an e-mail address that is NULL; metadata that name a
    role other than 'user', 'therapist' and 'admin'. *)
Theorem sign_up_refused (now : timestamptz) (new : AuthUser.row) (d : db) :
  (is_Some (auth_users d !! AuthUser.id new) →
   sign_up now new d = (Failed unique_violation, d))
  ∧ (auth_users d !! AuthUser.id new = None →
     AuthUser.email new = None →
     sign_up now new d = (Failed not_null_violation, d))
  ∧ (∀ r, auth_users d !! AuthUser.id new = None →
          is_Some (AuthUser.email new) →
          AuthUser.raw_user_meta_data new !! "role" = Some r →
          r ∉ ["user"; "therapist"; "admin"] →
          sign_up now new d = (Failed check_violation, d)).
Proof.
  unfold sign_up, handle_new_user, has_key. split_and!.
  - intros Hu. by rewrite bool_decide_true.
  - intros Hu He. rewrite bool_decide_false by (rewrite Hu; by intros [? ?]).
    by rewrite He.
  - intros r Hu [e He] Hr Hn.
    rewrite bool_decide_false by (rewrite Hu; by intros [? ?]).
    rewrite He, Hr.
    destruct (Profile.check_role _) eqn:Hck; [|done].
    apply check_role_true in Hck. by destruct Hn.
Qed.

(** ** Registration of a therapist *)

Lemma Therapists_insert_true auth_uid t :
  Therapists_insert auth_uid t = true ↔ auth_uid = Some (Therapist.id t).
Proof.
  unfold Therapists_insert, Allow_insert_during_therapist_signup.
  apply qualifies_auth_uid.
Qed.


(** The stranger of [Scenario], whose role is 'user', registers as a
    therapist with the approval status 'approved' and is listed in the
    public directory at once. *)
Example self_approved_registration :
  let registration :=
    {| Therapist.i_id := Scenario.stranger;
       Therapist.i_user_id := Scenario.stranger;
       Therapist.i_Name := "S";
       Therapist.i_email := "s@example.com";
       Therapist.i_phone := None;
       Therapist.i_Specialization := "Anxiety";
       Therapist.i_fee := 0;
       Therapist.i_bio := None;
       Therapist.i_experience := None;
       Therapist.i_license := None;
       Therapist.i_Active := DEFAULT;
       Therapist.i_approval_status := VALUE (Some "approved");
       Therapist.i_created_at := DEFAULT |} in
  let result :=
    insert_Therapists (Some Scenario.stranger) 106 registration Scenario.directory_db in
  get_user_role Scenario.directory_db Scenario.stranger = Some "user"
  ∧ result.1 = Done 1
  ∧ Therapist.id <$> select_Therapists None (λ _, true) result.2
    = [Scenario.stranger; Scenario.therapist].
Proof. by vm_compute. Qed.

(** * More of [app.js] *)

(** ** The lookups and the page guard *)

(** X14.  [getCurrentUser], [getCurrentSession] and [getUserProfile]
    never throw, never navigate and never sign out, whatever the platform
    answers; each returns an object exactly when the platform's call
    resolved with that object and no error, and null otherwise. *)
Theorem lookups_never_throw {Session : Type}
    (auth_getSession : Js.completion (App.response Session))
    (P : App.platform) (userId : uuid) (w : Js.world) :
  let quiet (w' : Js.world) :=
    Js.location_href w' = Js.location_href w
    ∧ Js.signed_out w' = Js.signed_out w in
  (∃ v w', App.getCurrentUser P w = (Js.Normal v, w') ∧ quiet w'
     ∧ (∀ user, v = Some user
          ↔ App.auth_getUser P
            = Js.Normal {| App.data := Some user; App.error := None |}))
  ∧ (∃ v w', getCurrentSession auth_getSession w = (Js.Normal v, w') ∧ quiet w'
     ∧ (∀ session, v = Some session
          ↔ auth_getSession
            = Js.Normal {| App.data := Some session; App.error := None |}))
  ∧ (∃ v w', App.getUserProfile P userId w = (Js.Normal v, w') ∧ quiet w'
     ∧ (∀ profile, v = Some profile
          ↔ App.profiles_single P userId
            = Js.Normal {| App.data := Some profile; App.error := None |})).
Proof.
  intros quiet. subst quiet. run_prog. split_and!.
  - destruct (App.auth_getUser P) as [[data [e|]]|e]; simpl;
      do 2 eexists; (split_and!; [done|done|done|]); intros x; split; congruence.
  - destruct auth_getSession as [[data [e|]]|e]; simpl;
      do 2 eexists; (split_and!; [done|done|done|]); intros x; split; congruence.
  - destruct (App.profiles_single P userId) as [[data [e|]]|e]; simpl;
      do 2 eexists; (split_and!; [done|done|done|]); intros x; split; congruence.
Qed.

(** X15.  [hasRole] never throws, never navigates and never signs out.
    It returns true exactly when the profile is fetched and has the role;
    when no profile is fetched it returns null, not false. *)
Theorem hasRole_outcome (P : App.platform) (userId : uuid) (role : string)
    (w : Js.world) :
  ∃ v w',
    hasRole P userId role w = (Js.Normal v, w')
    ∧ Js.location_href w' = Js.location_href w
    ∧ Js.signed_out w' = Js.signed_out w
    ∧ (v = Some true
       ↔ ∃ profile,
           App.profiles_single P userId
           = Js.Normal {| App.data := Some profile; App.error := None |}
           ∧ Profile.role profile = role)
    ∧ (v = None
       ↔ ¬ ∃ profile,
             App.profiles_single P userId
             = Js.Normal {| App.data := Some profile; App.error := None |}).
Proof.
  run_prog.
  destruct (App.profiles_single P userId) as [[[profile|] [e|]]|e]; simpl;
    do 2 eexists; (split_and!; [done|done|done| |]).
  all: try (split; [done|]; by intros (? & [=] & _)).
  all: try (split; [done|]; by intros (? & [=])).
  all: try (split; [|done]; by intros _ (? & [=])).
  - split.
    + intros [= Hr%String.eqb_eq]. eauto.
    + intros (? & [= <-] & Hr). by rewrite <- Hr, String.eqb_refl.
  - split; [done|]. intros Hn. destruct Hn. eauto.
Qed.

(** ** [redirectByRole] and [guardDashboard] *)

Lemma append_empty_r (s : string) : s ++ "" = s.
Proof.
  induction s as [|c s IH]; [done|].
  change (String c s ++ "") with (String c (s ++ "")). by rewrite IH.
Qed.

Lemma append_snoc (s t : string) (c : ascii) :
  (s ++ String c "") ++ t = s ++ String c t.
Proof.
  induction s as [|c' s IH]; [done|].
  change ((String c' s ++ String c "") ++ t)
    with (String c' ((s ++ String c "") ++ t)).
  by rewrite IH.
Qed.

Lemma last_segment_no_slash (acc file : string) :
  "/"%char ∉ list_ascii_of_string file →
  App.last_segment acc file = acc ++ file.
Proof.
  revert acc. induction file as [|c file IH]; intros acc Hn; simpl.
  - by rewrite append_empty_r.
  - simpl in Hn. apply not_elem_of_cons in Hn as [Hc Hn].
    destruct (Ascii.eqb_spec c "/") as [->|_]; [done|].
    by rewrite IH, append_snoc.
Qed.

Lemma last_segment_path (acc dir file : string) :
  "/"%char ∉ list_ascii_of_string file →
  App.last_segment acc (dir ++ String "/" file) = file.
Proof.
  intros Hn. revert acc. induction dir as [|c dir IH]; intros acc; simpl.
  - by rewrite last_segment_no_slash.
  - destruct (Ascii.eqb c "/"); apply IH.
Qed.

(** X16.  [redirectByRole] sends an admin to admin-dashboard.html, a
    therapist to therapist-dashboard.html and every other role, known or
    not, to user-dashboard.html, except that it does nothing when the last
    segment of the path is that page already. *)
Theorem redirectByRole_target (P : App.platform) (role dir file : string)
    (w : Js.world) :
  App.location_pathname P = dir ++ String "/" file →
  "/"%char ∉ list_ascii_of_string file →
  let target :=
    if decide (role = "admin") then "admin-dashboard.html"
    else if decide (role = "therapist") then "therapist-dashboard.html"
    else "user-dashboard.html" in
  App.redirectByRole P role w
  = (Js.Normal tt,
     if decide (file = target) then w
     else {| Js.location_href := Some target;
             Js.console := Js.console w;
             Js.signed_out := Js.signed_out w |}).
Proof.
  intros Hpath Hfile target. unfold App.redirectByRole.
  rewrite Hpath, last_segment_path by done.
  assert ((if String.eqb role "admin" then "admin-dashboard.html"
           else if String.eqb role "therapist" then "therapist-dashboard.html"
           else "user-dashboard.html") = target) as ->.
  { subst target. destruct (String.eqb_spec role "admin"); [by rewrite decide_True|].
    rewrite decide_False by done.
    destruct (String.eqb_spec role "therapist"); [by rewrite decide_True|].
    by rewrite decide_False. }
  destruct (String.eqb_spec file target); [by rewrite decide_True|].
  by rewrite decide_False.
Qed.

(** At the door of the therapist dashboard. *)
Lemma redirectByRole_target_witness :
  App.redirectByRole Scenario.pending_therapist "user" Js.initial
  = (Js.Normal tt,
     {| Js.location_href := Some "user-dashboard.html";
        Js.console := [];
        Js.signed_out := false |})
  ∧ App.redirectByRole Scenario.pending_therapist "therapist" Js.initial
    = (Js.Normal tt, Js.initial).
Proof.
  split.
  - apply (redirectByRole_target Scenario.pending_therapist "user" ""
             "therapist-dashboard.html" Js.initial); [done|simpl; set_solver].
  - apply (redirectByRole_target Scenario.pending_therapist "therapist" ""
             "therapist-dashboard.html" Js.initial); [done|simpl; set_solver].
Defined.

Lemma redirectByRole_completes P role w :
  ∃ w', App.redirectByRole P role w = (Js.Normal tt, w')
        ∧ Js.signed_out w' = Js.signed_out w.
Proof. unfold App.redirectByRole. case_match; by eexists. Qed.

(** X17.  [guardDashboard] never throws.  When it returns a user and a
    profile, the platform gave that user and that profile without error,
    the profile's role is the expected one, and the guard has neither
    navigated nor signed out.  When it returns null, it has sent the
    browser to login.html, or else user and profile were there with
    another role and the last thing it did was [redirectByRole] on that
    role.  It signs out only when there is a user without a profile. *)
Theorem guardDashboard_outcome (P : App.platform) (expectedRole : string)
    (w : Js.world) :
  ∃ v w',
    App.guardDashboard P expectedRole w = (Js.Normal v, w')
    ∧ (∀ user profile,
         v = Some (user, profile) →
         App.auth_getUser P
         = Js.Normal {| App.data := Some user; App.error := None |}
         ∧ App.profiles_single P (App.id user)
           = Js.Normal {| App.data := Some profile; App.error := None |}
         ∧ Profile.role profile = expectedRole
         ∧ Js.location_href w' = Js.location_href w
         ∧ Js.signed_out w' = Js.signed_out w)
    ∧ (v = None →
       Js.location_href w' = Some "login.html"
       ∨ ∃ user profile w0,
           App.auth_getUser P
           = Js.Normal {| App.data := Some user; App.error := None |}
           ∧ App.profiles_single P (App.id user)
             = Js.Normal {| App.data := Some profile; App.error := None |}
           ∧ Profile.role profile ≠ expectedRole
           ∧ Js.location_href w0 = Js.location_href w
           ∧ Js.signed_out w0 = Js.signed_out w
           ∧ App.redirectByRole P (Profile.role profile) w0 = (Js.Normal tt, w'))
    ∧ (Js.signed_out w' ≠ Js.signed_out w →
       App.auth_signOut P = Js.Normal tt
       ∧ Js.location_href w' = Some "login.html"
       ∧ ∃ user,
           App.auth_getUser P
           = Js.Normal {| App.data := Some user; App.error := None |}
           ∧ ¬ ∃ profile,
                 App.profiles_single P (App.id user)
                 = Js.Normal {| App.data := Some profile; App.error := None |}).
Proof.
  unfold App.guardDashboard, App.getCurrentUser, App.getUserProfile,
    Js.try_catch, Js.await, mbind, prog_bind, Js.bind.
  destruct (App.auth_getUser P) as [[[user|] [e|]]|e] eqn:Hu; simpl;
    try (do 2 eexists; split; [reflexivity|]; simpl;
         split_and!; [done|by left|done]).
  destruct (App.profiles_single P (App.id user)) as [[[profile|] [e|]]|e] eqn:Hp;
    simpl.
  1,3-5: destruct (App.auth_signOut P) as [[]|e'] eqn:Hs; simpl;
       do 2 eexists; (split; [reflexivity|]); simpl;
       (split_and!; [done|by left|]); try done;
       intros _; (split_and!; [done|done|]); exists user; (split; [done|]);
       intros (? & ?); congruence.
  - destruct (String.eqb_spec (Profile.role profile) expectedRole) as [Hr|Hr]; simpl.
    + destruct (String.eqb (Profile.role profile) "therapist"); simpl.
      * destruct (App.Therapists_approval_status_single P (App.id user))
          as [[[st|] err]|e]; simpl; try case_bool_decide; simpl;
          do 2 eexists; (split; [reflexivity|]); simpl;
          (split_and!; [|try done; by left|done]);
          try done; by intros ? ? [= <- <-].
      * do 2 eexists. split; [reflexivity|]. simpl.
        split_and!; [|done|done]. by intros ? ? [= <- <-].
    + match goal with |- context [App.redirectByRole P ?r ?w0] =>
        destruct (redirectByRole_completes P r w0) as (w' & Hrd & Hso) end.
      rewrite Hrd. simpl. do 2 eexists. split; [reflexivity|].
      split_and!; [done| |by rewrite Hso].
      intros _. right. eexists user, profile, _.
      split_and!; [done|done|done| | |exact Hrd]; done.
Qed.

(** ** The date validator, by the fields of the string *)



(** ** [isValidEmail] *)

Section regular_expressions.
Import RegExp.
Local Open Scope list_scope.

(** The matcher decides the match. *)

Lemma matches_nil_nullable p : matches p [] ↔ nullable p = true.
Proof.
  split.
  - intros H. remember [] as s eqn:Hs.
    induction H as [| |p q s t _ IHp _ IHq| | | |p s t _ IHp _ IHq]; simpl; try done.
    + apply app_eq_nil in Hs as [-> ->]. by rewrite IHp, IHq.
    + by rewrite IHmatches.
    + rewrite IHmatches by done. by rewrite orb_true_r.
  - induction p as [| |p IHp q IHq|p IHp q IHq|p IHp]; simpl; try done.
    + intros _. constructor.
    + intros [Hp Hq]%andb_true_iff. apply (matches_seq p q [] []); auto.
    + intros [Hp|Hq]%orb_true_iff; [apply matches_alt_l|apply matches_alt_r]; auto.
    + intros _. constructor.
Qed.

Lemma matches_Nothing s : ¬ matches Nothing s.
Proof. by inversion 1. Qed.

Lemma matches_star_cons p c s :
  matches (Star p) (c :: s)
  → ∃ s1 s2, s = s1 ++ s2 ∧ matches p (c :: s1) ∧ matches (Star p) s2.
Proof.
  intros H. remember (Star p) as r eqn:Hr. remember (c :: s) as u eqn:Hu.
  induction H as [| | | | | |p' s' t Hp _ Ht IHt]; try done.
  injection Hr as ->. destruct s' as [|c' s'].
  - simpl in Hu. by apply IHt.
  - simpl in Hu. injection Hu as -> <-. by exists s', t.
Qed.

Lemma matches_seq_inv p q u :
  matches (Seq p q) u ↔ ∃ s t, u = s ++ t ∧ matches p s ∧ matches q t.
Proof.
  split.
  - inversion 1; subst; eauto.
  - intros (s & t & -> & ? & ?). by constructor.
Qed.

Lemma matches_alt_inv p q u : matches (Alt p q) u ↔ matches p u ∨ matches q u.
Proof.
  split.
  - inversion 1; subst; eauto.
  - intros [?|?]; [by apply matches_alt_l|by apply matches_alt_r].
Qed.

Lemma matches_class_inv negated atoms u :
  matches (Class negated atoms) u
  ↔ ∃ c, u = [c] ∧ class_matches negated atoms c = true.
Proof.
  split.
  - inversion 1; subst; eauto.
  - intros (c & -> & ?). by constructor.
Qed.

Lemma matches_eps_inv u : matches Eps u ↔ u = [].
Proof.
  split.
  - by inversion 1.
  - intros ->. constructor.
Qed.

Lemma matches_derivative c p s : matches (derivative c p) s ↔ matches p (c :: s).
Proof.
  revert s. induction p as [neg atoms| |p IHp q IHq|p IHp q IHq|p IHp];
    intros s; simpl.
  - rewrite matches_class_inv. destruct (class_matches neg atoms c) eqn:Hc.
    + rewrite matches_eps_inv. split; [intros ->; eauto|].
      by intros (? & [= -> ->] & _).
    + split; [by intros ?%matches_Nothing|]. intros (? & [= <- _] & ?). congruence.
  - rewrite matches_eps_inv. split; [by intros ?%matches_Nothing|done].
  - assert (matches (Seq (derivative c p) q) s
            ↔ ∃ s1 s2, s = s1 ++ s2 ∧ matches p (c :: s1) ∧ matches q s2) as Hseq.
    { rewrite matches_seq_inv. by setoid_rewrite IHp. }
    assert (matches (Seq p q) (c :: s)
            ↔ (∃ s1 s2, s = s1 ++ s2 ∧ matches p (c :: s1) ∧ matches q s2)
              ∨ (matches p [] ∧ matches q (c :: s))) as Hcons.
    { rewrite matches_seq_inv. split.
      - intros ([|c1 s1] & s2 & Heq & H1 & H2); simpl in Heq.
        + right. by subst.
        + injection Heq as -> ->. left. by exists s1, s2.
      - intros [(s1 & s2 & -> & H1 & H2)|[H1 H2]].
        + by exists (c :: s1), s2.
        + by exists [], (c :: s). }
    rewrite Hcons. destruct (nullable p) eqn:Hn.
    + rewrite matches_alt_inv, Hseq, IHq, matches_nil_nullable.
      split; (intros [H|H]; [by left|right]); [done|by destruct H].
    + rewrite Hseq, matches_nil_nullable. split; [by left|].
      intros [H|[H _]]; [done|congruence].
  - rewrite !matches_alt_inv, IHp, IHq. done.
  - rewrite matches_seq_inv. setoid_rewrite IHp. split.
    + intros (s1 & s2 & -> & H1 & H2).
      by apply (matches_star_more p (c :: s1) s2).
    + intros (s1 & s2 & -> & H1 & H2)%matches_star_cons. by exists s1, s2.
Qed.

Lemma test_matches p s : test p s = true ↔ matches p s.
Proof.
  unfold test. revert p. induction s as [|c s IH]; intros p; simpl.
  - by rewrite matches_nil_nullable.
  - by rewrite IH, matches_derivative.
Qed.

Lemma matches_star_class negated atoms s :
  matches (Star (Class negated atoms)) s
  ↔ Forall (λ c, class_matches negated atoms c = true) s.
Proof.
  split.
  - intros H. remember (Star (Class negated atoms)) as r eqn:Hr.
    induction H as [| | | | | |p s t Hp _ Ht IHt]; try done.
    injection Hr as ->. apply matches_class_inv in Hp as (c & -> & Hc).
    constructor; [done|by apply IHt].
  - induction 1 as [|c s Hc _ IH]; [constructor|].
    apply (matches_star_more _ [c] s); [by constructor|done].
Qed.

Lemma matches_plus_class negated atoms s :
  matches (Plus (Class negated atoms)) s
  ↔ s ≠ [] ∧ Forall (λ c, class_matches negated atoms c = true) s.
Proof.
  unfold Plus. rewrite matches_seq_inv.
  setoid_rewrite matches_class_inv. setoid_rewrite matches_star_class. split.
  - intros (? & t & -> & (c & -> & Hc) & Ht). split; [done|by constructor].
  - intros [Hne Hs]. destruct Hs as [|c s Hc Hs]; [done|].
    exists [c], s. eauto.
Qed.

Lemma matches_Char c s : matches (Char c) s ↔ s = [c].
Proof.
  unfold Char. rewrite matches_class_inv. unfold class_matches. simpl. split.
  - intros (c' & -> & Hc). rewrite orb_false_r in Hc.
    apply bool_decide_eq_true in Hc. by subst.
  - intros ->. exists c. by rewrite bool_decide_true.
Qed.

Lemma email_class c :
  class_matches true [WhiteSpace; Single 64%N] c = true
  ↔ JsString.is_white_space c = false ∧ c ≠ 64%N.
Proof.
  unfold class_matches, existsb, atom_matches, xorb.
  rewrite orb_false_r.
  destruct (JsString.is_white_space c); [by split; [|intros [? _]]|].
  case_bool_decide; [by split; [|intros [_ ?]]|done].
Qed.

(** X19.  [isValidEmail] accepts exactly the strings of the form
    name@domain.last in which the three parts are not empty and hold
    neither white space nor '@'.  Dots are allowed anywhere in the parts,
    so the split at the dot need not be unique. *)
Theorem isValidEmail_shape (email : JsString.t) :
  isValidEmail email = true
  ↔ ∃ name domain last,
      email = name ++ [64%N] ++ domain ++ [46%N] ++ last
      ∧ name ≠ [] ∧ domain ≠ [] ∧ last ≠ []
      ∧ Forall (λ c, JsString.is_white_space c = false ∧ c ≠ 64%N)
          (name ++ domain ++ last).
Proof.
  unfold isValidEmail, emailRegex. rewrite test_matches. split.
  - intros H.
    apply matches_seq_inv in H as (name & r1 & -> & Hn & H).
    apply matches_seq_inv in H as (at_sign & r2 & -> & Hat & H).
    apply matches_seq_inv in H as (domain & r3 & -> & Hd & H).
    apply matches_seq_inv in H as (dot & last & -> & Hdot & Hl).
    apply matches_plus_class in Hn as [? Hn].
    apply matches_plus_class in Hd as [? Hd].
    apply matches_plus_class in Hl as [? Hl].
    apply matches_Char in Hat as ->. apply matches_Char in Hdot as ->.
    exists name, domain, last. rewrite !Forall_app.
    split_and!; try done;
      (eapply Forall_impl; [eassumption|]); intros c Hc; by apply email_class.
  - intros (name & domain & last & -> & ? & ? & ? & Hall).
    apply Forall_app in Hall as [Hn Hall].
    apply Forall_app in Hall as [Hd Hl].
    assert (∀ s, s ≠ [] →
              Forall (λ c, JsString.is_white_space c = false ∧ c ≠ 64%N) s →
              matches (Plus (Class true [WhiteSpace; Single 64%N])) s) as Hplus.
    { intros s Hs Hall. apply matches_plus_class. split; [done|].
      eapply Forall_impl; [eassumption|]. intros c Hc. by apply email_class. }
    apply matches_seq; [by apply Hplus|].
    apply (matches_seq _ _ [64%N]); [by apply matches_Char|].
    apply matches_seq; [by apply Hplus|].
    apply (matches_seq _ _ [46%N]); [by apply matches_Char|].
    by apply Hplus.
Qed.

Example isValidEmail_examples :
  isValidEmail (JsString.of_ascii "pat@example.com") = true
  ∧ isValidEmail (JsString.of_ascii "pat@example") = false
  ∧ isValidEmail (JsString.of_ascii "pat example@mail.com") = false
  ∧ isValidEmail (JsString.of_ascii "pat@@example.com") = false
  ∧ isValidEmail (JsString.of_ascii "pat@example.") = false
  ∧ isValidEmail (JsString.of_ascii "pat@.com") = false
  ∧ isValidEmail (JsString.of_ascii "pat@example..com") = true
  ∧ isValidEmail (JsString.of_ascii ".@-.!") = true.
Proof. by vm_compute. Qed.

End regular_expressions.

(** ** [formatTime] *)

Section time_display.
Local Open Scope list_scope.
Local Open Scope Z_scope.

Lemma split_no_separator sep (s : JsString.t) :
  sep ∉ s → JsNumber.split sep s = [s].
Proof.
  induction s as [|c s IH]; [done|]. intros [Hc Hs]%not_elem_of_cons. simpl.
  rewrite (proj2 (N.eqb_neq c sep)) by done. by rewrite IH.
Qed.

Lemma split_at_separator sep (s rest : JsString.t) :
  sep ∉ s → JsNumber.split sep (s ++ sep :: rest) = s :: JsNumber.split sep rest.
Proof.
  induction s as [|c s IH]; simpl.
  - by rewrite N.eqb_refl.
  - intros [Hc Hs]%not_elem_of_cons.
    rewrite (proj2 (N.eqb_neq c sep)) by done. by rewrite IH.
Qed.

(** X20.  For an hour from 00 to 23 written with two digits, followed by
    ':' and the minutes, and then by nothing or by ':' and more,
    [formatTime] gives the hour on the twelve-hour clock without a leading
    zero (12 for 00 and for 12), the minutes as they are, and AM before
    noon, PM from noon on; the seconds are dropped. *)
Theorem formatTime_clock (h : Z) (minutes rest : JsString.t) :
  0 ≤ h ≤ 23 →
  58%N ∉ minutes →
  rest = [] ∨ (∃ seconds, rest = 58%N :: seconds) →
  formatTime
    (Some ([(48 + Z.to_N (h / 10))%N; (48 + Z.to_N (h mod 10))%N]
           ++ [58%N] ++ minutes ++ rest))
  = JsNumber.toString (if decide (h mod 12 = 0) then 12 else h mod 12)
    ++ [58%N] ++ minutes ++ [32%N]
    ++ JsString.of_ascii (if decide (h < 12) then "AM" else "PM").
Proof.
  intros Hh Hm Hrest.
  assert (∃ parts, JsNumber.split 58%N (minutes ++ rest) = minutes :: parts)
    as [parts Hparts].
  { destruct Hrest as [->|[seconds ->]].
    - rewrite app_nil_r, split_no_separator by done. by eexists.
    - rewrite split_at_separator by done. by eexists. }
  assert (h ∈ seqZ 0 24) as Hcases by (apply elem_of_seqZ; lia).
  unfold formatTime.
  repeat (apply elem_of_cons in Hcases as [->|Hcases];
          [simpl; rewrite Hparts; reflexivity|]).
  by apply elem_of_nil in Hcases.
Qed.

(** Five past one in the afternoon, with seconds. *)
Lemma formatTime_clock_witness :
  formatTime (Some (JsString.of_ascii "13:05:00")) = JsString.of_ascii "1:05 PM".
Proof.
  apply (formatTime_clock 13 (JsString.of_ascii "05") (JsString.of_ascii ":00")).
  - lia.
  - vm_compute. set_solver.
  - right. by eexists.
Defined.

Example formatTime_examples :
  formatTime None = JsString.of_ascii "N/A"
  ∧ formatTime (Some []) = JsString.of_ascii "N/A"
  ∧ formatTime (Some (JsString.of_ascii "00:30")) = JsString.of_ascii "12:30 AM"
  ∧ formatTime (Some (JsString.of_ascii "12:00")) = JsString.of_ascii "12:00 PM"
  ∧ formatTime (Some (JsString.of_ascii "24:10")) = JsString.of_ascii "12:10 PM"
  ∧ formatTime (Some (JsString.of_ascii "7")) = JsString.of_ascii "7:undefined AM"
  ∧ formatTime (Some (JsString.of_ascii "soon")) = JsString.of_ascii "12:undefined AM"
  ∧ formatTime (Some (JsString.of_ascii "-13:10")) = JsString.of_ascii "-1:10 AM".
Proof. by vm_compute. Qed.

End time_display.

(** ** [debounce] *)

Section debouncing.
Import Debounce.
Local Open Scope list_scope.
Local Open Scope Z_scope.
Context {Args : Type} (wait : Z).

Lemma run_snoc (es : list (event Args)) (e : event Args) (s : state Args) :
  run wait (es ++ [e]) s = run wait es s ≫= λ s', step wait s' e.
Proof. unfold run. by rewrite foldl_app. Qed.

Lemma snoc_eq_app {A} (l before mid after : list A) (x : A) :
  l ++ [x] = before ++ mid ++ after →
  (after = [] ∧ l ++ [x] = before ++ mid)
  ∨ ∃ after', after = after' ++ [x] ∧ l = before ++ mid ++ after'.
Proof.
  destruct after as [|y after' _] using rev_ind.
  - rewrite app_nil_r. by left.
  - rewrite !app_assoc. intros [Hl ->]%app_inj_tail. right. exists after'.
    by rewrite Hl, !app_assoc.
Qed.

Lemma debounce_invariant (es : list (event Args)) (s : state Args) :
  run wait es initial = Some s →
  timers_as_left wait es s
  ∧ (∀ t args,
       (t, args) ∈ calls s
       ↔ ∃ before after t0 id, es = before ++ [Call t0 args; Fire t id] ++ after)
  ∧ (∀ before after t0 args t id,
       es = before ++ [Call t0 args; Fire t id] ++ after → t0 + wait ≤ t)
  ∧ (∀ before t id after,
       es = before ++ Fire t id :: after →
       ∃ before' t0 args, before = before' ++ [Call t0 args]).
Proof.
  revert s. induction es as [|e es IH] using rev_ind; intros s.
  - intros [= <-]. split_and!.
    + left. split; [done|by left].
    + intros t args. simpl. split; [by intros ?%elem_of_nil|].
      intros (before & after & t0 & id & Heq). by destruct before.
    + intros before after t0 args t id Heq. by destruct before.
    + intros before t id after Heq. by destruct before.
  - rewrite run_snoc. destruct (run wait es initial) as [s0|] eqn:Hrun; [|done].
    simpl. destruct (IH s0 eq_refl) as (Htimers & Hcalls & Hwait & Hfire).
    clear IH. unfold step. case_bool_decide as Hclock; [done|].
    destruct e as [t args|t id].
    + (* a call *)
      intros [= <-]. split_and!.
      * right. exists es, t, args, (next_id s0). split_and!; [done|done|].
        simpl. destruct Htimers as [[-> _]|(? & ? & ? & id & _ & -> & ->)].
        -- unfold clearTimeout. case_match; [|done].
           by rewrite delete_empty.
        -- simpl. by rewrite delete_singleton_eq.
      * intros t' args'. simpl. rewrite Hcalls. split.
        -- intros (before & after & t0 & id & ->).
           exists before, (after ++ [Call t args]), t0, id.
           by rewrite <- !app_assoc.
        -- intros (before & after & t0 & id & Heq).
           apply (snoc_eq_app es before [Call t0 args'; Fire t' id]) in Heq
             as [[-> Heq]|(after' & -> & ->)]; [|by eauto 6].
           change [Call t0 args'; Fire t' id]
             with ([Call t0 args'] ++ [Fire t' id]) in Heq.
           rewrite app_assoc in Heq. by apply app_inj_tail in Heq as [_ ?].
      * intros before after t0 args' t' id Heq.
        apply (snoc_eq_app es before [Call t0 args'; Fire t' id]) in Heq
          as [[-> Heq]|(after' & -> & ->)]; [|by eauto].
        change [Call t0 args'; Fire t' id]
          with ([Call t0 args'] ++ [Fire t' id]) in Heq.
        rewrite app_assoc in Heq. by apply app_inj_tail in Heq as [_ ?].
      * intros before t' id after Heq.
        change (Fire t' id :: after) with ([Fire t' id] ++ after) in Heq.
        apply (snoc_eq_app es before [Fire t' id]) in Heq
          as [[-> Heq]|(after' & -> & ->)]; [|by eauto].
        by apply app_inj_tail in Heq as [_ ?].
    + (* a timer runs *)
      destruct (pending s0 !! id) as [[due args]|] eqn:Hid; [|done].
      case_bool_decide as Hdue; [|done]. intros [= <-].
      destruct Htimers as [[Hnone _]|(es' & t0 & args' & id' & -> & Hto & Hp)];
        [by rewrite Hnone, lookup_empty in Hid|].
      rewrite Hp in Hid. apply lookup_singleton_Some in Hid as [-> [= <- <-]].
      split_and!.
      * left. split; [|right; by eauto]. simpl. rewrite Hto, Hp. simpl.
        by rewrite delete_singleton_eq, delete_empty.
      * intros t' args''. simpl. rewrite elem_of_cons, Hcalls. split.
        -- intros [[= -> ->]|(before & after & t1 & id1 & Heq)].
           ++ exists es', [], t0, id. by rewrite <- app_assoc.
           ++ rewrite Heq. exists before, (after ++ [Fire t id]), t1, id1.
              by rewrite <- !app_assoc.
        -- intros (before & after & t1 & id1 & Heq).
           apply (snoc_eq_app _ before [Call t1 args''; Fire t' id1]) in Heq
             as [[-> Heq]|(after' & -> & Heq)]; [|right; by eauto 6].
           change [Call t1 args''; Fire t' id1]
             with ([Call t1 args''] ++ [Fire t' id1]) in Heq.
           rewrite app_assoc in Heq. apply app_inj_tail in Heq as [Heq [= -> ->]].
           apply app_inj_tail in Heq as [_ [= -> ->]]. by left.
      * intros before after t1 args'' t' id1 Heq.
        apply (snoc_eq_app _ before [Call t1 args''; Fire t' id1]) in Heq
          as [[-> Heq]|(after' & -> & Heq)]; [|by eauto].
        change [Call t1 args''; Fire t' id1]
          with ([Call t1 args''] ++ [Fire t' id1]) in Heq.
        rewrite app_assoc in Heq. apply app_inj_tail in Heq as [Heq [= -> ->]].
        by apply app_inj_tail in Heq as [_ [= -> ->]].
      * intros before t' id1 after Heq.
        change (Fire t' id1 :: after) with ([Fire t' id1] ++ after) in Heq.
        apply (snoc_eq_app _ before [Fire t' id1]) in Heq
          as [[-> Heq]|(after' & -> & Heq)]; [|by eauto].
        apply app_inj_tail in Heq as [<- _]. by eauto.
Qed.

(** X21.  Whatever the calls of a debounced function and the timer runs
    of the browser: [func] is run with some arguments at some time exactly
    when a timer run at that time comes straight after a call with those
    arguments, with no other call in between; the timer run is then at
    least [wait] after the call; no timer ever runs that does not come
    straight after a call; and at most one timer is pending. *)
Theorem debounce_runs_the_latest_call (es : list (event Args)) (s : state Args) :
  run wait es initial = Some s →
  (∀ t args,
     (t, args) ∈ calls s
     ↔ ∃ before after t0 id, es = before ++ [Call t0 args; Fire t id] ++ after)
  ∧ (∀ before after t0 args t id,
       es = before ++ [Call t0 args; Fire t id] ++ after → t0 + wait ≤ t)
  ∧ (∀ before t id after,
       es = before ++ Fire t id :: after →
       ∃ before' t0 args, before = before' ++ [Call t0 args])
  ∧ (∀ i j x y, pending s !! i = Some x → pending s !! j = Some y → i = j).
Proof.
  intros (Htimers & Hcalls & Hwait & Hfire)%debounce_invariant.
  split_and!; [done|done|done|].
  intros i j x y Hi Hj.
  destruct Htimers as [[Hnone _]|(es' & t0 & args & id & _ & _ & Hp)].
  - by rewrite Hnone, lookup_empty in Hi.
  - rewrite Hp in Hi, Hj.
    apply lookup_singleton_Some in Hi as [Hi _].
    apply lookup_singleton_Some in Hj as [Hj _]. congruence.
Qed.

End debouncing.

(** Three keystrokes in a search box debounced at 300 ms: two in quick
    succession, a third after the timer of the second has run. *)
Lemma debounce_runs_the_latest_call_witness :
  Debounce.calls
    <$> Debounce.run 300
          [Debounce.Call 0 "a"; Debounce.Call 100 "ab"; Debounce.Fire 400 2;
           Debounce.Call 500 "abc"; Debounce.Fire 900 3]%Z
          Debounce.initial
  = Some [(900, "abc"); (400, "ab")]%Z
  ∧ (100 + 300 ≤ 400)%Z.
Proof.
  split; [by vm_compute|].
  assert (Debounce.run 300
            [Debounce.Call 0 "a"; Debounce.Call 100 "ab"; Debounce.Fire 400 2;
             Debounce.Call 500 "abc"; Debounce.Fire 900 3]%Z
            Debounce.initial
          = Some
              {| Debounce.clock := 900;
                 Debounce.next_id := 4;
                 Debounce.pending := ∅;
                 Debounce.timeout := Some 3%positive;
                 Debounce.calls := [(900, "abc"); (400, "ab")]%Z |}) as Hrun
    by (by vm_compute).
  pose proof (debounce_runs_the_latest_call 300 _ _ Hrun) as (_ & Hwait & _).
  apply (Hwait [Debounce.Call 0 "a"] [Debounce.Call 500 "abc"; Debounce.Fire 900 3]%Z
           100%Z "ab" 400%Z 2%positive).
  done.
Defined.

(** ** [calculateAge] and [isValidTherapistAge] *)

Section calendar.
Import JsDate JsCalendar.
Local Open Scope Z_scope.

Lemma DayFromYear_next y :
  DayFromYear (y + 1) = DayFromYear y + 365 + (if InLeapYear y then 1 else 0).
Proof.
  unfold DayFromYear, InLeapYear.
  repeat case_bool_decide; simpl; Z.div_mod_to_equations; lia.
Qed.

Lemma YearFromDay_bounds day :
  DayFromYear (YearFromDay day) ≤ day < DayFromYear (YearFromDay day + 1).
Proof.
  unfold YearFromDay.
  set (y := 1970 + day * 400 / 146097).
  assert (DayFromYear (y - 1) ≤ day < DayFromYear (y + 2)) as Hest.
  { subst y. unfold DayFromYear. Z.div_mod_to_equations. lia. }
  repeat case_bool_decide.
  - replace (y - 1 + 1) with y by lia. lia.
  - replace (y + 1 + 1) with (y + 2) by lia. lia.
  - lia.
Qed.

Lemma DayFromYear_mono y y' : y < y' → DayFromYear y + 365 ≤ DayFromYear y'.
Proof. unfold DayFromYear. intros. Z.div_mod_to_equations. lia. Qed.

Lemma YearFromDay_unique day y :
  DayFromYear y ≤ day < DayFromYear (y + 1) → YearFromDay day = y.
Proof.
  intros Hy. pose proof (YearFromDay_bounds day) as Hb.
  destruct (Z.lt_trichotomy (YearFromDay day) y) as [Hlt|[Heq|Hgt]]; [|done|].
  - assert (DayFromYear (YearFromDay day + 1) ≤ DayFromYear y); [|lia].
    destruct (decide (YearFromDay day + 1 = y)) as [->|]; [lia|].
    pose proof (DayFromYear_mono (YearFromDay day + 1) y). lia.
  - assert (DayFromYear (y + 1) ≤ DayFromYear (YearFromDay day)); [|lia].
    destruct (decide (y + 1 = YearFromDay day)) as [->|]; [lia|].
    pose proof (DayFromYear_mono (y + 1) (YearFromDay day)). lia.
Qed.

Lemma DayWithinYear_MakeDay y m d :
  1 ≤ m ≤ 12 →
  1 ≤ d ≤ DaysInMonth y m →
  let leap := if InLeapYear y then 1 else 0 in
  ∃ before,
    MakeDay y m d = DayFromYear y + before + d - 1
    ∧ 0 ≤ before + d - 1 < 365 + leap
    ∧ ((m = 1 ∧ before = 0 ∧ d ≤ 31)
       ∨ (m = 2 ∧ before = 31 ∧ d ≤ 28 + leap)
       ∨ (m = 3 ∧ before = 59 + leap ∧ d ≤ 31)
       ∨ (m = 4 ∧ before = 90 + leap ∧ d ≤ 30)
       ∨ (m = 5 ∧ before = 120 + leap ∧ d ≤ 31)
       ∨ (m = 6 ∧ before = 151 + leap ∧ d ≤ 30)
       ∨ (m = 7 ∧ before = 181 + leap ∧ d ≤ 31)
       ∨ (m = 8 ∧ before = 212 + leap ∧ d ≤ 31)
       ∨ (m = 9 ∧ before = 243 + leap ∧ d ≤ 30)
       ∨ (m = 10 ∧ before = 273 + leap ∧ d ≤ 31)
       ∨ (m = 11 ∧ before = 304 + leap ∧ d ≤ 30)
       ∨ (m = 12 ∧ before = 334 + leap ∧ d ≤ 31)).
Proof.
  intros Hm Hd leap. unfold MakeDay.
  exists (days_before y (Z.to_nat (m - 1))). split; [done|].
  assert (m ∈ seqZ 1 12) as Hcases by (apply elem_of_seqZ; lia).
  subst leap. revert Hd.
  repeat (apply elem_of_cons in Hcases as [->|Hcases];
          [unfold days_before, DaysInMonth; simpl; destruct (InLeapYear y);
           intros Hd; (split; [lia|]); clear Hm; naive_solver lia|]).
  by apply elem_of_nil in Hcases.
Qed.

(** The fields of the day that [MakeDay] makes of a date are that date. *)
Lemma fields_of_MakeDay y m d :
  1 ≤ m ≤ 12 →
  1 ≤ d ≤ DaysInMonth y m →
  YearFromDay (MakeDay y m d) = y
  ∧ MonthFromDay (MakeDay y m d) = m - 1
  ∧ DateFromDay (MakeDay y m d) = d.
Proof.
  intros Hm Hd.
  destruct (DayWithinYear_MakeDay y m d Hm Hd) as (before & -> & Hrange & Hcases).
  pose proof (DayFromYear_next y) as Hnext. simpl in *.
  assert (YearFromDay (DayFromYear y + before + d - 1) = y) as Hy.
  { apply YearFromDay_unique. lia. }
  split; [done|].
  unfold DateFromDay, MonthFromDay, DayWithinYear. rewrite Hy.
  replace (DayFromYear y + before + d - 1 - DayFromYear y) with (before + d - 1)
    by lia.
  clear Hy Hnext Hrange.
  set (leap := if InLeapYear y then 1 else 0) in *.
  assert (0 ≤ leap ≤ 1) as Hleap by (subst leap; by destruct (InLeapYear y)).
  clearbody leap.
  destruct Hcases as
    [(-> & -> & ?)|[(-> & -> & ?)|[(-> & -> & ?)|[(-> & -> & ?)|[(-> & -> & ?)|
    [(-> & -> & ?)|[(-> & -> & ?)|[(-> & -> & ?)|[(-> & -> & ?)|[(-> & -> & ?)|
    [(-> & -> & ?)|(-> & -> & ?)]]]]]]]]]]];
    repeat match goal with
      | |- context [Z.ltb ?a ?b] => destruct (Z.ltb_spec a b); try lia
      end;
    simpl; lia.
Qed.

Lemma Day_LocalTime_midnight e day :
  - msPerDay < LocalTZA e < msPerDay →
  Day (LocalTime e (day * msPerDay))
  = if decide (0 ≤ LocalTZA e) then day else day - 1.
Proof.
  unfold Day, LocalTime, msPerDay. intros Htz.
  case_decide; Z.div_mod_to_equations; lia.
Qed.


End calendar.

